(** * cbindex: a prefix-indexed CSV lookup engine (index.go)

    A shallow embedding of [cbindex.FileIndex] and of its operations
    [NewFileIndex], [acquireHandle], [releaseHandle], [GetRow] and
    [GetRowsByPartialKey], followed by the properties of the design
    document that were checked against them.

    Conventions of the embedding:
    - a Go [string] is a Rocq [string] (a sequence of bytes); [len] and
      slicing count bytes, as in Go;
    - Go [int] is taken to be 64 bits wide and is a [Z]; [int32] is a [Z]
      whose additions wrap around ([wrap32]);
    - a Go function is a state transformer that either returns or panics
      ([Go]); [defer] is [defer_];
    - the operating system and the CSV reader are an environment ([World]):
      what [os.Stat], [os.Open] and [Seek] answer, and which results the
      successive [csv.Reader.Read] calls give on a file from a byte offset;
      a ghost log records every file operation performed. *)

From Stdlib Require Import ZArith String Ascii List Bool Lia.
From stdpp Require Import base option list gmap strings.

Local Open Scope string_scope.
Local Open Scope Z_scope.

(** ** Go values *)

(** [len(s)] for a string. *)
Definition len (s : string) : Z := Z.of_nat (String.length s).

(** [s[:n]]: a run-time panic when [n] is negative or beyond [len(s)]. *)
Definition slice_to (s : string) (n : Z) : option string :=
  if (n <? 0) || (len s <? n) then None
  else Some (substring 0 (Z.to_nat n) s).

(** Two's complement wrap-around of [int32] arithmetic. *)
Definition wrap32 (z : Z) : Z := (z + 2 ^ 31) mod 2 ^ 32 - 2 ^ 31.

Definition int32_range (z : Z) : Prop := - 2 ^ 31 <= z < 2 ^ 31.

(** Error values.  The three package-level sentinels of index.go, the
    sentinels of the standard library the code tests for, anonymous
    [errors.New] values, errors produced by the system or by the CSV
    reader, and wrapping (what [errors.Is] looks through). *)
Inductive error : Type :=
  | io_EOF
  | os_ErrNotExist
  | os_ErrInvalid
  | TooManyConcurrentHandlesError
  | InvalidHandleError
  | KeyTooShortForIndex
  | errors_New (msg : string)
  | lib_error (msg : string)
  | wrapped (msg : string) (inner : error).

#[global] Instance error_eq_dec : EqDecision error.
Proof. solve_decision. Defined.

Fixpoint error_chain_has (e target : error) : bool :=
  if decide (e = target) then true
  else match e with
       | wrapped _ inner => error_chain_has inner target
       | _ => false
       end.

(** [errors.Is(e, target)]; a nil error matches nothing. *)
Definition errors_Is (e : option error) (target : error) : bool :=
  match e with
  | None => false
  | Some e => error_chain_has e target
  end.

(** [strings.Contains(s, substr)] on bytes. *)
Fixpoint strings_Contains (s substr : string) : bool :=
  String.prefix substr s ||
  match s with
  | EmptyString => false
  | String _ s' => strings_Contains s' substr
  end.

(** [strings.ToLower] maps through the Unicode tables; the development
    is parametric in it.  [ascii_ToLower] is its behaviour on ASCII text. *)
Class StringsLib := { strings_ToLower : string -> string }.

Definition ascii_lower (c : ascii) : ascii :=
  let n := N_of_ascii c in
  if ((65 <=? n) && (n <=? 90))%N then ascii_of_N (n + 32) else c.

Fixpoint ascii_ToLower (s : string) : string :=
  match s with
  | EmptyString => EmptyString
  | String c s' => String (ascii_lower c) (ascii_ToLower s')
  end.

(** [strconv.ParseInt(s, 10, 64)]: an optional sign, then one or more
    decimal digits, the value within [int64]; [None] stands for a non-nil
    error (syntax or range). *)
Definition digit_of (c : ascii) : option Z :=
  let n := N_of_ascii c in
  if ((48 <=? n) && (n <=? 57))%N then Some (Z.of_N n - 48) else None.

Fixpoint parse_digits (acc : Z) (s : string) : option Z :=
  match s with
  | EmptyString => Some acc
  | String c s' =>
      match digit_of c with
      | Some d => parse_digits (10 * acc + d) s'
      | None => None
      end
  end.

Definition ParseUint (s : string) : option Z :=
  match s with
  | EmptyString => None
  | _ => parse_digits 0 s
  end.

Definition ParseInt (s : string) : option Z :=
  match s with
  | EmptyString => None
  | String c rest =>
      let '(neg, digits) :=
        if Ascii.eqb c "+" then (false, rest)
        else if Ascii.eqb c "-" then (true, rest)
        else (false, s) in
      match ParseUint digits with
      | None => None
      | Some un =>
          if neg then (if un <=? 2 ^ 63 then Some (- un) else None)
          else (if un <? 2 ^ 63 then Some un else None)
      end
  end.

(** ** The environment: files, handles, the CSV reader *)

(** [*os.File]: the opened path and a descriptor. *)
Record os_File : Type := mk_File { file_name : string; fd : nat }.

#[global] Instance os_File_eq_dec : EqDecision os_File.
Proof. solve_decision. Defined.

(** What one call of [csv.Reader.Read] gives back: a record (nil is the
    empty list) and an error. *)
Record ReadResult : Type := mk_Read
  { rr_line : list string; rr_err : option error }.

(** A record read without error. *)
Definition row (fields : list string) : ReadResult := mk_Read fields None.

(** File operations, for the ghost log. *)
Inductive FileOp : Type :=
  | OpStat (path : string)
  | OpOpen (path : string)
  | OpSeek (h : os_File) (offset : Z)
  | OpRead (h : os_File).

(** The world outside the program.  [w_csv path off] lists the results of
    the successive [Read] calls of a CSV reader over [path] positioned at
    byte [off]; once the list is used up every further [Read] gives
    [io.EOF].  [w_ops] is the log, the most recent operation first. *)
Record World : Type := mk_World
  { w_stat : string -> option error;
    w_open : string -> option error;
    w_seek : string -> Z -> option error;
    w_csv : string -> Z -> list ReadResult;
    w_next_fd : nat;
    w_ops : list FileOp }.

Definition world_log (op : FileOp) (w : World) : World :=
  mk_World (w_stat w) (w_open w) (w_seek w) (w_csv w) (w_next_fd w)
           (op :: w_ops w).

Definition world_fresh_fd (w : World) : World :=
  mk_World (w_stat w) (w_open w) (w_seek w) (w_csv w) (S (w_next_fd w))
           (w_ops w).

(** ** The data model of index.go *)

(** [sync.Pool] over handles of the data file: the idle handles and the
    path captured by its [New] closure.  (The run time may also drop idle
    handles at any moment; nothing below depends on which handle a [Get]
    gives.) *)
Record Pool : Type := mk_Pool { pool_path : string; pool_idle : list os_File }.

Record FileIndex : Type := mk_FileIndex
  { dataCsvPath : string;
    indexCsvPath : string;
    concurrentHandleLimit : Z;
    warmUp : bool;
    warmUpCount : Z;
    warmUpDelay : Z;
    indexKeyLength : Z;
    pool : Pool;
    openHandleCount : Z;
    index : gmap string Z }.

Record Config : Type := mk_Config
  { DataCsvPath : string;
    IndexCsvPath : string;
    ConcurrentHandleLimit : Z;
    WarmUpCount : Z;
    WarmUpDelay : Z;
    IndexKeyLength : Z }.

Definition set_openHandleCount (c : Z) (f : FileIndex) : FileIndex :=
  mk_FileIndex (dataCsvPath f) (indexCsvPath f) (concurrentHandleLimit f)
    (warmUp f) (warmUpCount f) (warmUpDelay f) (indexKeyLength f)
    (pool f) c (index f).

Definition set_pool_idle (l : list os_File) (f : FileIndex) : FileIndex :=
  mk_FileIndex (dataCsvPath f) (indexCsvPath f) (concurrentHandleLimit f)
    (warmUp f) (warmUpCount f) (warmUpDelay f) (indexKeyLength f)
    (mk_Pool (pool_path (pool f)) l) (openHandleCount f) (index f).

(** The state a method call runs in: the receiver and the world. *)
Record State : Type := mk_State { this : FileIndex; world : World }.

(** ** Go functions: state, return or panic *)

Inductive Result (A : Type) : Type :=
  | Returns (a : A)
  | Panics (msg : string).
Arguments Returns {A} a.
Arguments Panics {A} msg.

Definition Go (S A : Type) : Type := S -> Result A * S.

Definition go_ret {S A} (a : A) : Go S A := fun s => (Returns a, s).

Definition go_bind {S A B} (m : Go S A) (k : A -> Go S B) : Go S B :=
  fun s =>
    match m s with
    | (Returns a, s') => k a s'
    | (Panics msg, s') => (Panics msg, s')
    end.

Definition go_panic {S A} (msg : string) : Go S A := fun s => (Panics msg, s).

(** [defer d] before [body]: [d] runs when [body] returns and while it
    panics; a panic of [body] goes on after [d]. *)
Definition defer_ {S A} (d : Go S unit) (body : Go S A) : Go S A :=
  fun s =>
    let '(r, s1) := body s in
    match d s1 with
    | (Returns _, s2) => (r, s2)
    | (Panics msg, s2) => (Panics msg, s2)
    end.

Declare Scope go_scope.
Delimit Scope go_scope with go.
Notation "'let*' x ':=' m 'in' k" := (go_bind m (fun x => k))
  (at level 10, x pattern, m at level 100, k at level 200) : go_scope.
Notation "m ';;;' k" := (go_bind m (fun _ => k))
  (at level 100, k at level 200, right associativity) : go_scope.
Local Open Scope go_scope.

Definition get_this : Go State FileIndex := fun s => (Returns (this s), s).

Definition modify_this (g : FileIndex -> FileIndex) : Go State unit :=
  fun s => (Returns tt, mk_State (g (this s)) (world s)).

Definition log_op (op : FileOp) : Go State unit :=
  fun s => (Returns tt, mk_State (this s) (world_log op (world s))).

(** [line[0]]: an index out of range panics. *)
Definition first_field {S} (line : list string) : Go S string :=
  match line with
  | k0 :: _ => go_ret k0
  | [] => go_panic "index out of range [0] with length 0"
  end.

(** [line[1]]. *)
Definition second_field {S} (line : list string) : Go S string :=
  match line with
  | _ :: v :: _ => go_ret v
  | [_] => go_panic "index out of range [1] with length 1"
  | [] => go_panic "index out of range [1] with length 0"
  end.

Definition go_slice_to {S} (s : string) (n : Z) : Go S string :=
  match slice_to s n with
  | Some p => go_ret p
  | None => go_panic "slice bounds out of range"
  end.

(** ** System calls *)

Definition os_log (op : FileOp) : Go World unit :=
  fun w => (Returns tt, world_log op w).

(** [os.Stat(path)], its error only. *)
Definition os_Stat (path : string) : Go World (option error) :=
  fun w => (Returns (w_stat w path), world_log (OpStat path) w).

(** [os.Open(path)]: a handle with a fresh descriptor and a nil error
    ([inl]), or a nil handle and an error ([inr]). *)
Definition os_Open (path : string) : Go World (os_File + error) :=
  fun w =>
    match w_open w path with
    | Some e => (Returns (inr e), world_log (OpOpen path) w)
    | None =>
        (Returns (inl (mk_File path (w_next_fd w))),
         world_fresh_fd (world_log (OpOpen path) w))
    end.

(** A system call made from a method. *)
Definition in_world {A} (m : Go World A) : Go State A :=
  fun s => let '(r, w) := m (world s) in (r, mk_State (this s) w).

(** [handle.Seek(int64(offset), io.SeekStart)], its error only. *)
Definition file_Seek (handle : os_File) (offset : Z) : Go State (option error) :=
  fun s =>
    (Returns (w_seek (world s) (file_name handle) offset),
     mk_State (this s) (world_log (OpSeek handle offset) (world s))).

(** [csv.NewReader(handle)] on a handle positioned at [offset]: the results
    its [Read] calls are going to give. *)
Definition csv_NewReader (handle : os_File) (offset : Z) : Go World (list ReadResult) :=
  fun w => (Returns (w_csv w (file_name handle) offset), w).

(** ** The handle pool *)

(** An [interface{}] value as the pool hands it out: the nil interface, or
    a [*os.File] (itself possibly a nil pointer). *)
Inductive iface : Type :=
  | nil_iface
  | File_iface (p : option os_File).

(** The [New] function of the pool (index.go, lines 85-91): [return nil]
    there is the nil interface. *)
Definition pool_New : Go State iface :=
  let* f := get_this in
  let* opened := in_world (os_Open (pool_path (pool f))) in
  match opened with
  | inr _ => go_ret nil_iface
  | inl file => go_ret (File_iface (Some file))
  end.

(** [pool.Get()]: an idle handle when there is one, else [New()]. *)
Definition pool_Get : Go State iface :=
  let* f := get_this in
  match pool_idle (pool f) with
  | h :: rest => modify_this (set_pool_idle rest) ;;; go_ret (File_iface (Some h))
  | [] => pool_New
  end.

(** [pool.Put(handle)]. *)
Definition pool_Put (handle : os_File) : Go State unit :=
  modify_this (fun f => set_pool_idle (handle :: pool_idle (pool f)) f).

(** The type assertion of [v] to [*os.File]: it panics on the nil interface. *)
Definition assert_File {S} (v : iface) : Go S (option os_File) :=
  match v with
  | File_iface p => go_ret p
  | nil_iface =>
      go_panic "interface conversion: interface {} is nil, not *os.File"
  end.

Definition atomic_LoadInt32_openHandleCount : Go State Z :=
  let* f := get_this in go_ret (openHandleCount f).

Definition atomic_AddInt32_openHandleCount (delta : Z) : Go State unit :=
  modify_this (fun f => set_openHandleCount (wrap32 (openHandleCount f + delta)) f).

(** index.go, lines 98-111. *)
Definition acquireHandle : Go State (option os_File * option error) :=
  let* count := atomic_LoadInt32_openHandleCount in
  let* f := get_this in
  if concurrentHandleLimit f <? count then
    go_ret (None, Some TooManyConcurrentHandlesError)
  else
    atomic_AddInt32_openHandleCount 1 ;;;
    let* v := pool_Get in
    let* handle := assert_File v in
    match handle with
    | None => go_ret (None, Some InvalidHandleError)
    | Some h => go_ret (Some h, None)
    end.

(** index.go, lines 113-118. *)
Definition releaseHandle (handle : option os_File) : Go State unit :=
  match handle with
  | Some h => atomic_AddInt32_openHandleCount (-1) ;;; pool_Put h
  | None => go_ret tt
  end.

(** [time.Sleep(d)]: time is no part of the state. *)
Definition time_Sleep (d : Z) : Go State unit := go_ret tt.

(** The first loop of [WarmUp] (index.go, lines 122-129) with [todo] turns
    left to make; the turns are counted once, as nothing in the loop writes
    [warmUpCount]. *)
Fixpoint WarmUp_acquire (todo : nat) (handles : list (option os_File))
    : Go State (list (option os_File) * option error) :=
  match todo with
  | O => go_ret (handles, None)
  | S todo' =>
      let* (handle, e) := acquireHandle in
      match e with
      | Some e => go_ret (handles, Some e)
      | None =>
          let* f := get_this in
          time_Sleep (warmUpDelay f) ;;;
          WarmUp_acquire todo' (handles ++ [handle])%list
      end
  end.

(** The second loop of [WarmUp] (index.go, lines 131-133). *)
Fixpoint WarmUp_release (handles : list (option os_File)) : Go State unit :=
  match handles with
  | [] => go_ret tt
  | handle :: handles' => releaseHandle handle ;;; WarmUp_release handles'
  end.

(** index.go, lines 120-136.  The loop [for i := 0; i < f.warmUpCount; i++]
    makes [warmUpCount] turns, none when it is zero or negative. *)
Definition WarmUp : Go State (option error) :=
  let* f := get_this in
  let* (handles, e) := WarmUp_acquire (Z.to_nat (warmUpCount f)) [] in
  match e with
  | Some e => go_ret (Some e)
  | None => WarmUp_release handles ;;; go_ret None
  end.

(** ** Lookups *)

(** The scan loop of [GetRow] (index.go, lines 162-183) over the results
    the reader is going to give; the empty list is a reader at end of
    file. *)
Fixpoint GetRow_scan (n : Z) (indexKey rowKey : string) (handle : os_File)
    (reader : list ReadResult) : Go State (option (list string) * option error) :=
  log_op (OpRead handle) ;;;
  match reader with
  | [] => go_ret (None, None)
  | r :: reader' =>
      if errors_Is (rr_err r) io_EOF then go_ret (None, None)
      else
        let* k0 := first_field (rr_line r) in
        if len k0 <? n then GetRow_scan n indexKey rowKey handle reader'
        else
          let* key := go_slice_to k0 n in
          if decide (key <> indexKey) then go_ret (None, None)
          else if decide (k0 = rowKey) then go_ret (Some (rr_line r), None)
          else GetRow_scan n indexKey rowKey handle reader'
  end.

(** index.go, lines 138-184.  A nil [[]string] result is [None]. *)
Definition GetRow (rowKey : string) : Go State (option (list string) * option error) :=
  let* f := get_this in
  if len rowKey <? indexKeyLength f then go_ret (None, Some KeyTooShortForIndex)
  else
    let* indexKey := go_slice_to rowKey (indexKeyLength f) in
    match index f !! indexKey with
    | None => go_ret (None, None)
    | Some offset =>
        let* (handle, e) := acquireHandle in
        match e with
        | Some e => go_ret (None, Some e)
        | None =>
            defer_ (releaseHandle handle)
              match handle with
              | None => go_ret (None, Some os_ErrInvalid)
              | Some h =>
                  let* e := file_Seek h offset in
                  match e with
                  | Some e => go_ret (None, Some e)
                  | None =>
                      let* csvReader := in_world (csv_NewReader h offset) in
                      GetRow_scan (indexKeyLength f) indexKey rowKey h csvReader
                  end
              end
        end
    end.

Section PartialKey.
Context `{!StringsLib}.

(** The scan loop of [GetRowsByPartialKey] (index.go, lines 212-236);
    [rows] is the slice collected so far. *)
Fixpoint GetRowsByPartialKey_scan (n : Z) (indexKey rowKey : string) (limit : Z)
    (handle : os_File) (rows : list (list string)) (reader : list ReadResult)
    : Go State (list (list string) * option error) :=
  log_op (OpRead handle) ;;;
  match reader with
  | [] => go_ret (rows, None)
  | r :: reader' =>
      if errors_Is (rr_err r) io_EOF then go_ret (rows, None)
      else
        let* k0 := first_field (rr_line r) in
        if len k0 <? n then
          GetRowsByPartialKey_scan n indexKey rowKey limit handle rows reader'
        else
          let* key := go_slice_to k0 n in
          if decide (key <> indexKey) then go_ret (rows, None)
          else if strings_Contains (strings_ToLower k0) (strings_ToLower rowKey) then
            let rows' := (rows ++ [rr_line r])%list in
            if (limit <=? Z.of_nat (length rows')) && negb (limit =? -1)
            then go_ret (rows', None)
            else GetRowsByPartialKey_scan n indexKey rowKey limit handle rows' reader'
          else GetRowsByPartialKey_scan n indexKey rowKey limit handle rows reader'
  end.

(** index.go, lines 186-237.  The nil [[][]string] is the empty list. *)
Definition GetRowsByPartialKey (rowKey : string) (limit : Z)
    : Go State (list (list string) * option error) :=
  let rows : list (list string) := [] in
  let* f := get_this in
  if len rowKey <? indexKeyLength f then go_ret (rows, Some KeyTooShortForIndex)
  else
    let* indexKey := go_slice_to rowKey (indexKeyLength f) in
    match index f !! indexKey with
    | None => go_ret (rows, None)
    | Some offset =>
        let* (handle, e) := acquireHandle in
        match e with
        | Some e => go_ret (rows, Some e)
        | None =>
            defer_ (releaseHandle handle)
              match handle with
              | None => go_ret (rows, Some os_ErrInvalid)
              | Some h =>
                  let* e := file_Seek h offset in
                  match e with
                  | Some e => go_ret (rows, Some e)
                  | None =>
                      let* csvReader := in_world (csv_NewReader h offset) in
                      GetRowsByPartialKey_scan (indexKeyLength f) indexKey rowKey
                        limit h rows csvReader
                  end
              end
        end
    end.
End PartialKey.

(** ** Construction *)

(** The loading loop of [NewFileIndex] (index.go, lines 62-75);
    [int(offset)] changes nothing on a 64-bit [int]. *)
Fixpoint NewFileIndex_load (indexFile : os_File) (reader : list ReadResult)
    (index : gmap string Z) : Go World (gmap string Z) :=
  os_log (OpRead indexFile) ;;;
  match reader with
  | [] => go_ret index
  | r :: reader' =>
      if errors_Is (rr_err r) io_EOF then go_ret index
      else
        let* key := first_field (rr_line r) in
        let* field := second_field (rr_line r) in
        match ParseInt field with
        | None => NewFileIndex_load indexFile reader' index
        | Some offset => NewFileIndex_load indexFile reader' (<[key := offset]> index)
        end
  end.

(** index.go, lines 44-96.  [warmUp] and [openHandleCount] are not set by
    the struct literal and keep their zero values; the pool starts empty. *)
Definition NewFileIndex (config : Config) : Go World (option FileIndex * option error) :=
  let* e := os_Stat (DataCsvPath config) in
  if errors_Is e os_ErrNotExist then
    go_ret (None, Some (errors_New "data csv file does not exist"))
  else
    let* e := os_Stat (IndexCsvPath config) in
    if errors_Is e os_ErrNotExist then
      go_ret (None, Some (errors_New "index csv file does not exist"))
    else
      let* opened := os_Open (IndexCsvPath config) in
      match opened with
      | inr e => go_ret (None, Some e)
      | inl indexFile =>
          let* indexCsv := csv_NewReader indexFile 0 in
          let* index := NewFileIndex_load indexFile indexCsv ∅ in
          go_ret
            (Some {| dataCsvPath := DataCsvPath config;
                     indexCsvPath := IndexCsvPath config;
                     concurrentHandleLimit := ConcurrentHandleLimit config;
                     warmUp := false;
                     warmUpCount := WarmUpCount config;
                     warmUpDelay := WarmUpDelay config;
                     indexKeyLength := IndexKeyLength config;
                     pool := mk_Pool (DataCsvPath config) [];
                     openHandleCount := 0;
                     index := index |}, None)
      end.

(** ** What the properties are stated with *)

(** The first field of a record, when it has one. *)
Definition key_of (r : ReadResult) : option string := head (rr_line r).

(** [k0] is at least [n] bytes long and its first [n] bytes are [indexKey]. *)
Definition has_prefix (n : Z) (indexKey k0 : string) : bool :=
  match slice_to k0 n with
  | Some p => bool_decide (p = indexKey)
  | None => false
  end.

(** A read that stays inside the same-prefix region of [indexKey]: it is
    not the end of the file, the record has a first field, and that field
    is too short to carry a prefix or carries [indexKey]. *)
Definition in_region (n : Z) (indexKey : string) (r : ReadResult) : bool :=
  negb (errors_Is (rr_err r) io_EOF) &&
  match key_of r with
  | Some k0 => (len k0 <? n) || has_prefix n indexKey k0
  | None => false
  end.

(** A record that carries another prefix: the region ends there. *)
Definition ends_region (n : Z) (indexKey : string) (r : ReadResult) : bool :=
  negb (errors_Is (rr_err r) io_EOF) &&
  match key_of r with
  | Some k0 => (n <=? len k0) && negb (has_prefix n indexKey k0)
  | None => false
  end.

(** The reader is at the end of the region: at the end of the file, or at
    a record that carries another prefix. *)
Definition region_closed (n : Z) (indexKey : string) (rest : list ReadResult) : bool :=
  match rest with
  | [] => true
  | r :: _ => errors_Is (rr_err r) io_EOF || ends_region n indexKey r
  end.

(** The record carries the key [rowKey]. *)
Definition has_key (rowKey : string) (r : ReadResult) : bool :=
  bool_decide (key_of r = Some rowKey).

(** The match predicate of the partial lookup: the record carries the
    prefix and its first field contains the query, both lower-cased. *)
Definition partial_match `{!StringsLib} (n : Z) (indexKey rowKey : string)
    (r : ReadResult) : bool :=
  match key_of r with
  | Some k0 =>
      has_prefix n indexKey k0 &&
      strings_Contains (strings_ToLower k0) (strings_ToLower rowKey)
  | None => false
  end.

(** What a limit keeps of the matches, in file order. *)
Definition limit_rows {A} (limit : Z) (l : list A) : list A :=
  if limit =? -1 then l else take (Z.to_nat (Z.max 1 limit)) l.

(** The state after [k] more [Read] calls on [h]. *)
Definition after_reads (k : nat) (h : os_File) (s : State) : State :=
  mk_State (this s)
    (mk_World (w_stat (world s)) (w_open (world s)) (w_seek (world s))
       (w_csv (world s)) (w_next_fd (world s))
       (repeat (OpRead h) k ++ w_ops (world s))%list).

(** The state a lookup scans in: the handle taken and positioned. *)
Definition positioned (h : os_File) (offset : Z) (s1 : State) : State :=
  mk_State (this s1) (world_log (OpSeek h offset) (world s1)).

(** The [k] handles the pool opens from descriptor [fd0] on. *)
Definition fresh_handles (path : string) (fd0 : nat) (k : nat) : list os_File :=
  map (mk_File path) (seq fd0 k).

(** The state after the pool has opened [k] handles and let them out. *)
Definition after_opens (k : nat) (s : State) : State :=
  mk_State
    (set_openHandleCount (openHandleCount (this s) + Z.of_nat k) (this s))
    (mk_World (w_stat (world s)) (w_open (world s)) (w_seek (world s))
       (w_csv (world s)) (w_next_fd (world s) + k)%nat
       (repeat (OpOpen (pool_path (pool (this s)))) k ++ w_ops (world s))%list).

(** Everything of a [FileIndex] but the counter and the idle handles. *)
Definition frame_of (f : FileIndex) :=
  (dataCsvPath f, indexCsvPath f, concurrentHandleLimit f, warmUp f,
   warmUpCount f, warmUpDelay f, indexKeyLength f, pool_path (pool f), index f).

(** A computation that leaves the receiver as it is. *)
Definition keeps_this {A} (m : Go State A) : Prop :=
  forall s, this (snd (m s)) = this s.

(** A computation that changes the counter and the idle handles at most. *)
Definition keeps_frame {A} (m : Go State A) : Prop :=
  forall s, frame_of (this (snd (m s))) = frame_of (this s).

(** The records an index file gives before its end. *)
Fixpoint before_EOF (reader : list ReadResult) : list ReadResult :=
  match reader with
  | [] => []
  | r :: reader' =>
      if errors_Is (rr_err r) io_EOF then [] else r :: before_EOF reader'
  end.

(** The entry an index line stands for: its prefix and its offset, when the
    line has two columns and the second one is an integer. *)
Definition index_entry (r : ReadResult) : option (string * Z) :=
  match rr_line r with
  | key :: field :: _ =>
      match ParseInt field with
      | Some offset => Some (key, offset)
      | None => None
      end
  | _ => None
  end.

(** The offset the last line carrying [key] and an integer offset gives. *)
Fixpoint last_entry (key : string) (lines : list ReadResult) : option Z :=
  match lines with
  | [] => None
  | r :: lines' =>
      match last_entry key lines' with
      | Some offset => Some offset
      | None =>
          match index_entry r with
          | Some (k, offset) => if decide (k = key) then Some offset else None
          | None => None
          end
      end
  end.

Definition two_columns (r : ReadResult) : bool :=
  match rr_line r with
  | _ :: _ :: _ => true
  | _ => false
  end.

(** A sequence of calls on the pool, one at a time; [Release] gives back
    the handle of the latest admitted [Acquire] still held. *)
Inductive PoolCall : Type := Acquire | Release.

Fixpoint run_calls (calls : list PoolCall) (held : list os_File) (s : State)
    : list os_File * State :=
  match calls with
  | [] => (held, s)
  | Acquire :: calls' =>
      match acquireHandle s with
      | (Returns (Some h, _), s') => run_calls calls' (h :: held) s'
      | (_, s') => run_calls calls' held s'
      end
  | Release :: calls' =>
      match held with
      | h :: held' => run_calls calls' held' (snd (releaseHandle (Some h) s))
      | [] => run_calls calls' held s
      end
  end.

(** ** A data file and its index, for tests *)

#[global] Instance ascii_StringsLib : StringsLib :=
  {| strings_ToLower := ascii_ToLower |}.

(** The records of a file with the byte offsets they start at, read from
    [offset] on. *)
Definition records_from (recs : list (Z * ReadResult)) (offset : Z) : list ReadResult :=
  map snd (filter (fun p => offset <= fst p) recs).

(** A world with a data file "data.csv" and an index file "index.csv". *)
Definition test_world (data_opens : bool) (data : list (Z * ReadResult))
    (index_lines : list ReadResult) : World :=
  {| w_stat := fun _ => None;
     w_open := fun path =>
       if decide (path = "data.csv") then
         (if data_opens then None else Some (lib_error "permission denied"))
       else None;
     w_seek := fun _ offset =>
       if offset <? 0 then Some (lib_error "seek: invalid argument") else None;
     w_csv := fun path offset =>
       if decide (path = "data.csv") then records_from data offset
       else if decide (path = "index.csv") then
         (if decide (offset = 0) then index_lines else [])
       else [];
     w_next_fd := 3;
     w_ops := [] |}.

Definition test_data : list (Z * ReadResult) :=
  [ (0, row ["cat"; "1"]); (6, row ["cats"; "2"]); (13, row ["bat"; "3"]);
    (19, row ["dog"; "4"]) ].

Definition test_index_lines : list ReadResult :=
  [ row ["cat"; "0"]; row ["bat"; "x13"]; row ["bat"; "13"]; row ["dog"; "5"];
    row ["dog"; "19"] ].

Definition test_config : Config :=
  {| DataCsvPath := "data.csv"; IndexCsvPath := "index.csv";
     ConcurrentHandleLimit := 2; WarmUpCount := 1; WarmUpDelay := 0;
     IndexKeyLength := 3 |}.

Definition test_FileIndex : FileIndex :=
  {| dataCsvPath := "data.csv"; indexCsvPath := "index.csv";
     concurrentHandleLimit := 2; warmUp := false; warmUpCount := 1;
     warmUpDelay := 0; indexKeyLength := 3;
     pool := mk_Pool "data.csv" []; openHandleCount := 0;
     index := {[ "cat" := 0; "bat" := 13; "dog" := 19 ]} |}.

Definition test_state : State :=
  mk_State test_FileIndex (test_world true test_data test_index_lines).

(** The same engine when the data file cannot be opened any more. *)
Definition test_state_locked : State :=
  mk_State test_FileIndex (test_world false test_data test_index_lines).

(** A data file whose second record has one field too many (the reader
    gives the record together with an error), and one whose second record
    breaks off in its first field (the reader gives an empty partial record
    together with an error). *)
Definition test_data_ragged : list (Z * ReadResult) :=
  [ (0, row ["cat"; "1"]);
    (6, mk_Read ["cats"; "2"; "x"] (Some (lib_error "wrong number of fields"))) ].

Definition test_data_bad_quote : list (Z * ReadResult) :=
  [ (0, row ["cat"; "1"]);
    (6, mk_Read [] (Some (lib_error "bare quote in non-quoted field"))) ].

Definition test_state_ragged : State :=
  mk_State test_FileIndex (test_world true test_data_ragged test_index_lines).

Definition test_state_bad_quote : State :=
  mk_State test_FileIndex (test_world true test_data_bad_quote test_index_lines).

(** An index file whose second line has one column only (the reader gives
    the record together with an error). *)
Definition test_index_lines_short : list ReadResult :=
  [ row ["cat"; "0"]; mk_Read ["bat"] (Some (lib_error "wrong number of fields")) ].

Definition test_handle : os_File := mk_File "data.csv" 3.

(** An engine asked to warm up more handles than its limit lets out. *)
Definition test_FileIndex_eager : FileIndex :=
  {| dataCsvPath := "data.csv"; indexCsvPath := "index.csv";
     concurrentHandleLimit := 2; warmUp := false; warmUpCount := 5;
     warmUpDelay := 0; indexKeyLength := 3;
     pool := mk_Pool "data.csv" []; openHandleCount := 0;
     index := {[ "cat" := 0; "bat" := 13; "dog" := 19 ]} |}.

Definition test_state_eager : State :=
  mk_State test_FileIndex_eager (test_world true test_data test_index_lines).

(** An engine with a negative warm-up count, over a data file that does
    not open. *)
Definition test_FileIndex_cold : FileIndex :=
  {| dataCsvPath := "data.csv"; indexCsvPath := "index.csv";
     concurrentHandleLimit := 2; warmUp := false; warmUpCount := -3;
     warmUpDelay := 0; indexKeyLength := 3;
     pool := mk_Pool "data.csv" []; openHandleCount := 0;
     index := {[ "cat" := 0; "bat" := 13; "dog" := 19 ]} |}.

Definition test_state_cold : State :=
  mk_State test_FileIndex_cold (test_world false test_data test_index_lines).

(** An engine built with a negative prefix length. *)
Definition test_FileIndex_negative : FileIndex :=
  {| dataCsvPath := "data.csv"; indexCsvPath := "index.csv";
     concurrentHandleLimit := 2; warmUp := false; warmUpCount := 1;
     warmUpDelay := 0; indexKeyLength := -1;
     pool := mk_Pool "data.csv" []; openHandleCount := 0;
     index := {[ "cat" := 0; "bat" := 13; "dog" := 19 ]} |}.

Definition test_state_negative : State :=
  mk_State test_FileIndex_negative (test_world true test_data test_index_lines).

(** The engine with three handles out, one above its limit of 2. *)
Definition test_state_full : State :=
  mk_State (set_openHandleCount 3 test_FileIndex)
    (test_world true test_data test_index_lines).

(** A world in which no seek succeeds. *)
Definition test_world_no_seek : World :=
  {| w_stat := fun _ => None;
     w_open := fun _ => None;
     w_seek := fun _ _ => Some (lib_error "seek: bad file descriptor");
     w_csv := fun _ offset => records_from test_data offset;
     w_next_fd := 3;
     w_ops := [] |}.

Definition test_state_no_seek : State := mk_State test_FileIndex test_world_no_seek.

(** A world in which no path exists. *)
Definition test_world_empty : World :=
  {| w_stat := fun _ => Some (wrapped "stat" os_ErrNotExist);
     w_open := fun _ => Some (wrapped "open" os_ErrNotExist);
     w_seek := fun _ _ => None;
     w_csv := fun _ _ => [];
     w_next_fd := 3;
     w_ops := [] |}.

(** * Properties *)

(** ** Arithmetic of the counter *)

Lemma wrap32_incr_decr (z : Z) :
  int32_range z -> wrap32 (wrap32 (z + 1) + -1) = z.
Proof.
  intros H. unfold wrap32.
  replace ((z + 1 + 2 ^ 31) mod 2 ^ 32 - 2 ^ 31 + -1 + 2 ^ 31)
    with ((z + 1 + 2 ^ 31) mod 2 ^ 32 - 1) by lia.
  rewrite <- (Z.mod_small 1 (2 ^ 32)) at 2 by lia.
  rewrite <- Zminus_mod.
  unfold int32_range in H. rewrite Z.mod_small; lia.
Qed.

(** ** Guards of the lookups *)

Lemma slice_to_Some (s : string) (n : Z) :
  0 <= n <= len s -> slice_to s n = Some (substring 0 (Z.to_nat n) s).
Proof.
  intros [H0 H1]. unfold slice_to.
  destruct (Z.ltb_spec n 0); [lia |].
  destruct (Z.ltb_spec (len s) n); [lia | reflexivity].
Qed.

Lemma slice_to_bounds (s p : string) (n : Z) :
  slice_to s n = Some p -> 0 <= n <= len s /\ p = substring 0 (Z.to_nat n) s.
Proof.
  unfold slice_to.
  destruct (Z.ltb_spec n 0); [discriminate |].
  destruct (Z.ltb_spec (len s) n); [discriminate |].
  simpl. intros [= <-]. split; [lia | reflexivity].
Qed.

(** C7.  A key shorter than the prefix length is refused by both lookups
    with [KeyTooShortForIndex], and the whole state is left as it was: the
    counter, the pool, and the log of file operations (no open, no seek,
    no read). *)
Theorem short_key_is_refused `{!StringsLib} (s : State) (rowKey : string) (limit : Z) :
  len rowKey < indexKeyLength (this s) ->
  GetRow rowKey s = (Returns (None, Some KeyTooShortForIndex), s) /\
  GetRowsByPartialKey rowKey limit s = (Returns ([], Some KeyTooShortForIndex), s).
Proof.
  intros Hshort.
  unfold GetRow, GetRowsByPartialKey, go_bind, get_this, go_ret.
  apply Z.ltb_lt in Hshort. rewrite Hshort. split; reflexivity.
Qed.

Lemma short_key_is_refused_witness :
  GetRow "ca" test_state = (Returns (None, Some KeyTooShortForIndex), test_state) /\
  GetRowsByPartialKey "ca" 5 test_state
  = (Returns ([], Some KeyTooShortForIndex), test_state).
Proof. apply (short_key_is_refused test_state "ca" 5). vm_compute. reflexivity. Defined.

(** C8.  For a key at least as long as the prefix length whose prefix is
    not in the index, [GetRow] returns nil and no error, and the whole
    state is left as it was: no handle is taken and the log of file
    operations does not grow. *)
Theorem absent_prefix_is_not_found (s : State) (rowKey : string) :
  0 <= indexKeyLength (this s) <= len rowKey ->
  index (this s) !! substring 0 (Z.to_nat (indexKeyLength (this s))) rowKey = None ->
  GetRow rowKey s = (Returns (None, None), s).
Proof.
  intros Hlen Habsent.
  unfold GetRow, go_bind, get_this, go_ret, go_slice_to.
  destruct (Z.ltb_spec (len rowKey) (indexKeyLength (this s))); [lia |].
  rewrite (slice_to_Some _ _ Hlen). simpl. rewrite Habsent. reflexivity.
Qed.

Lemma absent_prefix_is_not_found_witness :
  GetRow "cow" test_state = (Returns (None, None), test_state).
Proof.
  apply (absent_prefix_is_not_found test_state "cow").
  - vm_compute. split; discriminate.
  - vm_compute. reflexivity.
Defined.

(** ** The handle pool *)

(** Over the limit, [acquireHandle] refuses and changes nothing. *)
Lemma acquireHandle_over_limit (s : State) :
  concurrentHandleLimit (this s) < openHandleCount (this s) ->
  acquireHandle s = (Returns (None, Some TooManyConcurrentHandlesError), s).
Proof.
  intros Hover. unfold acquireHandle, atomic_LoadInt32_openHandleCount,
    go_bind, get_this, go_ret.
  apply Z.ltb_lt in Hover. rewrite Hover. reflexivity.
Qed.

(** At or below the limit it admits, and the counter is incremented
    whatever the pool gives. *)
Lemma acquireHandle_at_or_below_limit (s : State) :
  openHandleCount (this s) <= concurrentHandleLimit (this s) ->
  openHandleCount (this (snd (acquireHandle s)))
  = wrap32 (openHandleCount (this s) + 1).
Proof.
  intros Hle. unfold acquireHandle, atomic_LoadInt32_openHandleCount,
    atomic_AddInt32_openHandleCount, pool_Get, pool_New, in_world, os_Open,
    assert_File, modify_this, go_bind, get_this, go_ret, go_panic.
  simpl.
  destruct (Z.ltb_spec (concurrentHandleLimit (this s)) (openHandleCount (this s)));
    [lia |].
  simpl. destruct (pool_idle (pool (this s))) as [| h rest]; simpl.
  - destruct (w_open (world s) (pool_path (pool (this s)))); reflexivity.
  - reflexivity.
Qed.

(** What holds of the counter: one call of [acquireHandle] keeps it at
    most one above the limit. *)
Lemma acquireHandle_count_bound (s : State) :
  int32_range (openHandleCount (this s)) ->
  openHandleCount (this s) <= concurrentHandleLimit (this s) + 1 ->
  openHandleCount (this (snd (acquireHandle s)))
  <= concurrentHandleLimit (this (snd (acquireHandle s))) + 1.
Proof.
  intros Hrange Hbound.
  destruct (Z.lt_ge_cases (concurrentHandleLimit (this s)) (openHandleCount (this s)))
    as [Hover | Hle].
  - rewrite (acquireHandle_over_limit s Hover). exact Hbound.
  - rewrite (acquireHandle_at_or_below_limit s Hle).
    assert (Hlimit : concurrentHandleLimit (this (snd (acquireHandle s)))
                     = concurrentHandleLimit (this s)).
    { unfold acquireHandle, atomic_LoadInt32_openHandleCount,
        atomic_AddInt32_openHandleCount, pool_Get, pool_New, in_world, os_Open,
        assert_File, modify_this, go_bind, get_this, go_ret, go_panic.
      simpl.
      destruct (concurrentHandleLimit (this s) <? openHandleCount (this s)); simpl;
        [reflexivity |].
      destruct (pool_idle (pool (this s))); simpl; [| reflexivity].
      destruct (w_open (world s) (pool_path (pool (this s)))); reflexivity. }
    rewrite Hlimit.
    unfold int32_range in Hrange. unfold wrap32.
    destruct (Z.eq_dec (openHandleCount (this s)) (2 ^ 31 - 1)) as [Hmax | Hmax].
    + rewrite Hmax. replace (2 ^ 31 - 1 + 1 + 2 ^ 31) with (2 ^ 32) by lia.
      rewrite Z.mod_same by lia. lia.
    + rewrite Z.mod_small by lia. lia.
Qed.

(** C3.  Three calls of [acquireHandle], one after the other, on an engine
    whose limit is 2 and whose counter is 0: all three are admitted and the
    counter ends at 3, above the limit. *)
Theorem acquireHandle_goes_one_past_the_limit :
  length (fst (run_calls [Acquire; Acquire; Acquire] [] test_state)) = 3%nat /\
  concurrentHandleLimit (this (snd (run_calls [Acquire; Acquire; Acquire] [] test_state))) = 2 /\
  openHandleCount (this (snd (run_calls [Acquire; Acquire; Acquire] [] test_state))) = 3 /\
  concurrentHandleLimit (this (snd (run_calls [Acquire; Acquire; Acquire] [] test_state)))
  < openHandleCount (this (snd (run_calls [Acquire; Acquire; Acquire] [] test_state))).
Proof. vm_compute. repeat split; reflexivity. Qed.

(** When the pool is empty and the data file does not open, an admitted
    call panics in the type assertion, the counter already incremented. *)
Lemma acquireHandle_open_failure (s : State) (e : error) :
  openHandleCount (this s) <= concurrentHandleLimit (this s) ->
  pool_idle (pool (this s)) = [] ->
  w_open (world s) (pool_path (pool (this s))) = Some e ->
  fst (acquireHandle s)
  = Panics "interface conversion: interface {} is nil, not *os.File" /\
  openHandleCount (this (snd (acquireHandle s)))
  = wrap32 (openHandleCount (this s) + 1).
Proof.
  intros Hle Hidle Hopen. split; [| apply acquireHandle_at_or_below_limit; exact Hle].
  unfold acquireHandle, atomic_LoadInt32_openHandleCount,
    atomic_AddInt32_openHandleCount, pool_Get, pool_New, in_world, os_Open,
    assert_File, modify_this, go_bind, get_this, go_ret, go_panic.
  simpl.
  destruct (Z.ltb_spec (concurrentHandleLimit (this s)) (openHandleCount (this s)));
    [lia |].
  simpl. rewrite Hidle. simpl. rewrite Hopen. reflexivity.
Qed.

(** C4.  On an engine below its limit whose pool is empty and whose data
    file does not open, [acquireHandle] does not return
    [InvalidHandleError]: it panics, and so does the lookup that called it;
    the counter stays incremented. *)
Theorem acquireHandle_panics_when_open_fails :
  fst (acquireHandle test_state_locked)
  = Panics "interface conversion: interface {} is nil, not *os.File" /\
  openHandleCount (this test_state_locked) = 0 /\
  openHandleCount (this (snd (acquireHandle test_state_locked))) = 1 /\
  fst (GetRow "cat" test_state_locked)
  = Panics "interface conversion: interface {} is nil, not *os.File".
Proof. vm_compute. repeat split; reflexivity. Qed.

(** ** Read errors in the scan loops *)

(** The loop of [GetRow] never returns an error, whatever the reader gave. *)
Lemma GetRow_scan_returns_no_error (n : Z) (indexKey rowKey : string) (h : os_File)
    (reader : list ReadResult) (s : State) (r : option (list string)) (e : option error) :
  fst (GetRow_scan n indexKey rowKey h reader s) = Returns (r, e) -> e = None.
Proof.
  revert s. induction reader as [| x reader IH]; intros s; simpl;
    unfold go_bind, log_op, go_ret; simpl.
  - intros [= _ <-]. reflexivity.
  - destruct (errors_Is (rr_err x) io_EOF); [intros [= _ <-]; reflexivity |].
    destruct (rr_line x) as [| k0 rest]; simpl; [discriminate |].
    destruct (len k0 <? n); [apply IH |].
    unfold go_slice_to. destruct (slice_to k0 n) as [key |]; simpl; [| discriminate].
    destruct (decide (key <> indexKey)); [intros [= _ <-]; reflexivity |].
    destruct (decide (k0 = rowKey)); [intros [= _ <-]; reflexivity | apply IH].
Qed.

(** End of file ends the scan with nil and no error. *)
Lemma GetRow_scan_EOF (n : Z) (indexKey rowKey : string) (h : os_File) (s : State) :
  GetRow_scan n indexKey rowKey h [] s = (Returns (None, None), after_reads 1 h s).
Proof. reflexivity. Qed.

(** C5.  A read error other than end of file inside the region is not
    returned by the lookups.  When the reader gives a record with the
    error, the record is used as if it had been read well (here it is
    returned as the match, with a nil error); when it gives an empty
    record with the error, the lookup panics on its first field. *)
Theorem scan_does_not_propagate_read_errors :
  fst (GetRow "cats" test_state_ragged) = Returns (Some ["cats"; "2"; "x"], None) /\
  fst (GetRowsByPartialKey "cats" (-1) test_state_ragged)
  = Returns ([["cats"; "2"; "x"]], None) /\
  fst (GetRow "cats" test_state_bad_quote)
  = Panics "index out of range [0] with length 0" /\
  fst (GetRowsByPartialKey "cats" (-1) test_state_bad_quote)
  = Panics "index out of range [0] with length 0".
Proof. vm_compute. repeat split; reflexivity. Qed.

(** ** The exact lookup *)

Lemma after_reads_0 (h : os_File) (s : State) : after_reads 0 h s = s.
Proof. destruct s as [f [? ? ? ? ? ?]]. reflexivity. Qed.

Lemma after_reads_S (k : nat) (h : os_File) (s : State) :
  after_reads k h (after_reads 1 h s) = after_reads (S k) h s.
Proof.
  unfold after_reads. simpl. do 2 f_equal.
  change (OpRead h :: w_ops (world s))%list with ([OpRead h] ++ w_ops (world s))%list.
  rewrite app_assoc, <- repeat_cons. reflexivity.
Qed.

Lemma releaseHandle_returns (handle : option os_File) (s : State) :
  fst (releaseHandle handle s) = Returns tt.
Proof. destruct handle; reflexivity. Qed.

Lemma releaseHandle_world (handle : option os_File) (s : State) :
  world (snd (releaseHandle handle s)) = world s.
Proof. destruct handle; reflexivity. Qed.

Lemma defer_releaseHandle {A} (handle : option os_File) (body : Go State A) (s : State) :
  defer_ (releaseHandle handle) body s
  = (fst (body s), snd (releaseHandle handle (snd (body s)))).
Proof.
  unfold defer_. destruct (body s) as [r s1]. simpl.
  pose proof (releaseHandle_returns handle s1) as Hret.
  destruct (releaseHandle handle s1) as [[[] | msg] s2]; simpl in *;
    [reflexivity | discriminate].
Qed.

(** [GetRow] once the prefix is resolved, the handle taken and the seek
    done: the scan, then the deferred release. *)
Lemma GetRow_runs_scan (s s1 : State) (rowKey indexKey : string) (offset : Z) (h : os_File) :
  slice_to rowKey (indexKeyLength (this s)) = Some indexKey ->
  index (this s) !! indexKey = Some offset ->
  acquireHandle s = (Returns (Some h, None), s1) ->
  w_seek (world s1) (file_name h) offset = None ->
  GetRow rowKey s
  = (fst (GetRow_scan (indexKeyLength (this s)) indexKey rowKey h
            (w_csv (world s1) (file_name h) offset) (positioned h offset s1)),
     snd (releaseHandle (Some h)
            (snd (GetRow_scan (indexKeyLength (this s)) indexKey rowKey h
                    (w_csv (world s1) (file_name h) offset) (positioned h offset s1))))).
Proof.
  intros Hslice Hidx Hacq Hseek.
  destruct (slice_to_bounds _ _ _ Hslice) as [Hlen _].
  unfold GetRow. unfold go_bind at 1. unfold get_this at 1.
  destruct (Z.ltb_spec (len rowKey) (indexKeyLength (this s))); [lia |].
  unfold go_bind at 1. unfold go_slice_to. rewrite Hslice. unfold go_ret at 1.
  rewrite Hidx. unfold go_bind at 1. rewrite Hacq.
  rewrite defer_releaseHandle.
  unfold go_bind at 1 3. unfold file_Seek. rewrite Hseek.
  unfold go_bind, csv_NewReader. simpl. reflexivity.
Qed.

(** The loop passes over the records of the region that do not carry the key. *)
Lemma GetRow_scan_passes (n : Z) (indexKey rowKey : string) (h : os_File)
    (before rest : list ReadResult) (s : State) :
  forallb (fun x => in_region n indexKey x && negb (has_key rowKey x)) before = true ->
  GetRow_scan n indexKey rowKey h (before ++ rest) s
  = GetRow_scan n indexKey rowKey h rest (after_reads (length before) h s).
Proof.
  revert s. induction before as [| x before IH]; intros s Hall.
  - simpl. rewrite after_reads_0. reflexivity.
  - simpl in Hall. apply andb_true_iff in Hall as [Hx Hall].
    apply andb_true_iff in Hx as [Hreg Hkey].
    unfold in_region in Hreg. apply andb_true_iff in Hreg as [Heof Hreg].
    apply negb_true_iff in Heof. apply negb_true_iff in Hkey.
    unfold has_key in Hkey. apply bool_decide_eq_false in Hkey.
    unfold key_of in *.
    change (GetRow_scan n indexKey rowKey h ((x :: before) ++ rest) s)
      with (GetRow_scan n indexKey rowKey h (x :: before ++ rest) s).
    cbn [GetRow_scan]. unfold go_bind at 1. unfold log_op at 1.
    rewrite Heof.
    destruct (rr_line x) as [| k0 fields]; [discriminate |]. simpl in Hreg, Hkey.
    unfold first_field, go_bind at 1, go_ret at 1.
    cbn [length]. rewrite <- after_reads_S.
    change (mk_State (this s) (world_log (OpRead h) (world s)))
      with (after_reads 1 h s).
    destruct (len k0 <? n) eqn:Hshort.
    + apply IH. exact Hall.
    + simpl in Hreg. unfold has_prefix in Hreg. unfold go_slice_to.
      destruct (slice_to k0 n) as [key |]; [| discriminate].
      apply bool_decide_eq_true in Hreg. subst key.
      unfold go_bind at 1, go_ret at 1.
      destruct (decide (indexKey <> indexKey)) as [Hne | _]; [congruence |].
      destruct (decide (k0 = rowKey)) as [Heq | _]; [subst; congruence |].
      apply IH. exact Hall.
Qed.

(** A record the loop returns carries the key. *)
Lemma GetRow_scan_returns_key (n : Z) (indexKey rowKey : string) (h : os_File)
    (reader : list ReadResult) (s : State) (line : list string) (e : option error) :
  fst (GetRow_scan n indexKey rowKey h reader s) = Returns (Some line, e) ->
  head line = Some rowKey.
Proof.
  revert s. induction reader as [| x reader IH]; intros s; simpl;
    unfold go_bind, log_op, go_ret; simpl.
  - discriminate.
  - destruct (errors_Is (rr_err x) io_EOF); [discriminate |].
    destruct (rr_line x) as [| k0 rest] eqn:Hline; simpl; [discriminate |].
    destruct (len k0 <? n); [apply IH |].
    unfold go_slice_to. destruct (slice_to k0 n) as [key |]; simpl; [| discriminate].
    destruct (decide (key <> indexKey)); [discriminate |].
    destruct (decide (k0 = rowKey)) as [-> |]; [| apply IH].
    intros [= <- _]. reflexivity.
Qed.

(** Whatever the state, a record [GetRow] returns carries the key, and
    comes with a nil error. *)
Lemma GetRow_returns_key (s : State) (rowKey : string) (line : list string)
    (e : option error) :
  fst (GetRow rowKey s) = Returns (Some line, e) -> head line = Some rowKey /\ e = None.
Proof.
  unfold GetRow. unfold go_bind at 1. unfold get_this at 1.
  destruct (len rowKey <? indexKeyLength (this s)); [discriminate |].
  unfold go_bind at 1. unfold go_slice_to.
  destruct (slice_to rowKey (indexKeyLength (this s))) as [indexKey |];
    [| discriminate].
  unfold go_ret at 1.
  destruct (index (this s) !! indexKey) as [offset |]; [| discriminate].
  unfold go_bind at 1.
  destruct (acquireHandle s) as [[[handle [e1 |]] | msg] s1]; try discriminate.
  rewrite defer_releaseHandle. simpl.
  destruct handle as [h |]; [| discriminate].
  unfold go_bind at 1. unfold file_Seek.
  destruct (w_seek (world s1) (file_name h) offset); [discriminate |].
  unfold go_bind at 1. unfold csv_NewReader.
  intros Hscan. split.
  - eapply GetRow_scan_returns_key. exact Hscan.
  - eapply GetRow_scan_returns_no_error. exact Hscan.
Qed.

(** The loop at a record that carries the key. *)
Lemma GetRow_scan_hit (n : Z) (indexKey rowKey : string) (h : os_File)
    (r : ReadResult) (rest : list ReadResult) (s : State) :
  slice_to rowKey n = Some indexKey ->
  errors_Is (rr_err r) io_EOF = false ->
  key_of r = Some rowKey ->
  GetRow_scan n indexKey rowKey h (r :: rest) s
  = (Returns (Some (rr_line r), None), after_reads 1 h s).
Proof.
  intros Hslice Heof Hkey.
  destruct (slice_to_bounds _ _ _ Hslice) as [Hlen _].
  cbn [GetRow_scan]. unfold go_bind at 1. unfold log_op at 1. rewrite Heof.
  unfold key_of in Hkey. destruct (rr_line r) as [| k0 fields]; [discriminate |].
  simpl in Hkey. injection Hkey as ->.
  unfold first_field, go_bind at 1, go_ret at 1.
  destruct (Z.ltb_spec (len rowKey) n); [lia |].
  unfold go_slice_to. rewrite Hslice. unfold go_bind at 1, go_ret at 1.
  destruct (decide (indexKey <> indexKey)) as [Hne | _]; [congruence |].
  destruct (decide (rowKey = rowKey)) as [_ | Hne]; [| congruence].
  reflexivity.
Qed.

(** The loop at a record that carries another prefix. *)
Lemma GetRow_scan_stops (n : Z) (indexKey rowKey : string) (h : os_File)
    (r : ReadResult) (rest : list ReadResult) (s : State) :
  0 <= n ->
  ends_region n indexKey r = true ->
  GetRow_scan n indexKey rowKey h (r :: rest) s
  = (Returns (None, None), after_reads 1 h s).
Proof.
  intros Hn Hend. unfold ends_region in Hend.
  apply andb_true_iff in Hend as [Heof Hend]. apply negb_true_iff in Heof.
  cbn [GetRow_scan]. unfold go_bind at 1. unfold log_op at 1. rewrite Heof.
  unfold key_of in Hend. destruct (rr_line r) as [| k0 fields]; [discriminate |].
  simpl in Hend. apply andb_true_iff in Hend as [Hlong Hother].
  apply Z.leb_le in Hlong. apply negb_true_iff in Hother.
  unfold first_field, go_bind at 1, go_ret at 1.
  destruct (Z.ltb_spec (len k0) n); [lia |].
  unfold has_prefix in Hother. unfold go_slice_to.
  rewrite (slice_to_Some k0 n) in * by lia.
  apply bool_decide_eq_false in Hother.
  unfold go_bind at 1, go_ret at 1.
  destruct (decide (substring 0 (Z.to_nat n) k0 <> indexKey)) as [_ | Heq];
    [reflexivity | contradiction].
Qed.

(** C1.  Let the prefix of [rowKey] be indexed at [offset], the handle be
    granted and the seek succeed, and let the reader give, from [offset]
    on, records [before] that stay in the region of the prefix and do not
    carry [rowKey], and then a record [r].  If [r] carries [rowKey],
    [GetRow] returns the fields of [r] and no error.  Whatever [GetRow]
    returns carries exactly [rowKey] as its first field.  If [r] carries
    another prefix, the scan stops at [r]: the result is nil with no error,
    after one read for each record of [before] and one for [r]. *)
Theorem GetRow_finds_the_key_in_its_region (s s1 : State) (rowKey indexKey : string)
    (n offset : Z) (h : os_File) (before after : list ReadResult) (r : ReadResult) :
  indexKeyLength (this s) = n ->
  slice_to rowKey n = Some indexKey ->
  index (this s) !! indexKey = Some offset ->
  acquireHandle s = (Returns (Some h, None), s1) ->
  w_seek (world s1) (file_name h) offset = None ->
  w_csv (world s1) (file_name h) offset = (before ++ r :: after)%list ->
  forallb (fun x => in_region n indexKey x && negb (has_key rowKey x)) before = true ->
  (errors_Is (rr_err r) io_EOF = false -> key_of r = Some rowKey ->
   fst (GetRow rowKey s) = Returns (Some (rr_line r), None)) /\
  (forall line e, fst (GetRow rowKey s) = Returns (Some line, e) ->
   head line = Some rowKey /\ e = None) /\
  (ends_region n indexKey r = true ->
   fst (GetRow rowKey s) = Returns (None, None) /\
   w_ops (world (snd (GetRow rowKey s)))
   = (repeat (OpRead h) (S (length before)) ++ OpSeek h offset :: w_ops (world s1))%list).
Proof.
  intros Hn Hslice Hidx Hacq Hseek Hcsv Hbefore. subst n.
  pose proof (GetRow_runs_scan s s1 rowKey indexKey offset h Hslice Hidx Hacq Hseek)
    as Hrun.
  rewrite Hcsv in Hrun. rewrite (GetRow_scan_passes _ _ _ _ _ _ _ Hbefore) in Hrun.
  destruct (slice_to_bounds _ _ _ Hslice) as [Hlen _].
  split; [| split].
  - intros Heof Hkey. rewrite Hrun.
    rewrite (GetRow_scan_hit _ _ _ _ _ _ _ Hslice Heof Hkey). reflexivity.
  - intros line e. apply GetRow_returns_key.
  - intros Hend. rewrite Hrun.
    rewrite (GetRow_scan_stops _ _ rowKey h _ after _ (proj1 Hlen) Hend).
    split; [reflexivity |].
    cbn [fst snd]. rewrite releaseHandle_world. reflexivity.
Qed.

Lemma GetRow_finds_the_key_in_its_region_witness :
  fst (GetRow "cats" test_state) = Returns (Some ["cats"; "2"], None).
Proof.
  refine (proj1 (GetRow_finds_the_key_in_its_region test_state
            (snd (acquireHandle test_state)) "cats" "cat" 3 0 test_handle
            [row ["cat"; "1"]] [row ["bat"; "3"]; row ["dog"; "4"]]
            (row ["cats"; "2"]) _ _ _ _ _ _ _) _ _);
    vm_compute; reflexivity.
Defined.

(** ** The partial lookup *)

Section PartialKeyFacts.
Context `{!StringsLib}.

Lemma GetRowsByPartialKey_runs_scan (s s1 : State) (rowKey indexKey : string)
    (limit offset : Z) (h : os_File) :
  slice_to rowKey (indexKeyLength (this s)) = Some indexKey ->
  index (this s) !! indexKey = Some offset ->
  acquireHandle s = (Returns (Some h, None), s1) ->
  w_seek (world s1) (file_name h) offset = None ->
  GetRowsByPartialKey rowKey limit s
  = (fst (GetRowsByPartialKey_scan (indexKeyLength (this s)) indexKey rowKey limit h []
            (w_csv (world s1) (file_name h) offset) (positioned h offset s1)),
     snd (releaseHandle (Some h)
            (snd (GetRowsByPartialKey_scan (indexKeyLength (this s)) indexKey rowKey
                    limit h [] (w_csv (world s1) (file_name h) offset)
                    (positioned h offset s1))))).
Proof.
  intros Hslice Hidx Hacq Hseek.
  destruct (slice_to_bounds _ _ _ Hslice) as [Hlen _].
  unfold GetRowsByPartialKey. unfold go_bind at 1. unfold get_this at 1.
  destruct (Z.ltb_spec (len rowKey) (indexKeyLength (this s))); [lia |].
  unfold go_bind at 1. unfold go_slice_to. rewrite Hslice. unfold go_ret at 1.
  rewrite Hidx. unfold go_bind at 1. rewrite Hacq.
  rewrite defer_releaseHandle.
  unfold go_bind at 1 3. unfold file_Seek. rewrite Hseek.
  unfold go_bind, csv_NewReader. simpl. reflexivity.
Qed.

(** One turn of the loop on a record of the region. *)
Lemma GetRowsByPartialKey_scan_step (n : Z) (indexKey rowKey : string) (limit : Z)
    (h : os_File) (rows : list (list string)) (x : ReadResult)
    (reader : list ReadResult) (s : State) :
  in_region n indexKey x = true ->
  GetRowsByPartialKey_scan n indexKey rowKey limit h rows (x :: reader) s
  = if partial_match n indexKey rowKey x then
      if (limit <=? Z.of_nat (length (rows ++ [rr_line x]))) && negb (limit =? -1)
      then (Returns ((rows ++ [rr_line x])%list, None), after_reads 1 h s)
      else GetRowsByPartialKey_scan n indexKey rowKey limit h (rows ++ [rr_line x])
             reader (after_reads 1 h s)
    else GetRowsByPartialKey_scan n indexKey rowKey limit h rows reader
           (after_reads 1 h s).
Proof.
  intros Hreg. unfold in_region in Hreg.
  apply andb_true_iff in Hreg as [Heof Hreg]. apply negb_true_iff in Heof.
  cbn [GetRowsByPartialKey_scan]. unfold go_bind at 1. unfold log_op at 1.
  rewrite Heof. unfold partial_match, key_of in *.
  destruct (rr_line x) as [| k0 fields]; [discriminate |]. simpl in Hreg |- *.
  unfold go_bind at 1, go_ret at 1.
  change (mk_State (this s) (world_log (OpRead h) (world s)))
    with (after_reads 1 h s).
  unfold has_prefix in *. unfold go_slice_to.
  destruct (Z.ltb_spec (len k0) n) as [Hshort | Hlong].
  - unfold slice_to. apply Z.ltb_lt in Hshort. rewrite Hshort, orb_true_r.
    reflexivity.
  - simpl in Hreg. destruct (slice_to k0 n) as [key |]; [| discriminate].
    apply bool_decide_eq_true in Hreg. subst key.
    unfold go_bind at 1, go_ret at 1.
    destruct (decide (indexKey <> indexKey)) as [Hne | _]; [congruence |].
    rewrite bool_decide_eq_true_2 by reflexivity. simpl.
    destruct (strings_Contains (strings_ToLower k0) (strings_ToLower rowKey));
      [| reflexivity].
    destruct ((limit <=? Z.of_nat (length (rows ++ [k0 :: fields])))
              && negb (limit =? -1)); reflexivity.
Qed.

(** The loop at the end of the region. *)
Lemma GetRowsByPartialKey_scan_closed (n : Z) (indexKey rowKey : string) (limit : Z)
    (h : os_File) (rows : list (list string)) (rest : list ReadResult) (s : State) :
  0 <= n ->
  region_closed n indexKey rest = true ->
  GetRowsByPartialKey_scan n indexKey rowKey limit h rows rest s
  = (Returns (rows, None), after_reads 1 h s).
Proof.
  intros Hn Hclosed. destruct rest as [| r rest]; [reflexivity |].
  cbn [GetRowsByPartialKey_scan]. unfold go_bind at 1. unfold log_op at 1.
  simpl in Hclosed.
  destruct (errors_Is (rr_err r) io_EOF) eqn:Heof; [reflexivity |].
  simpl in Hclosed. unfold ends_region in Hclosed. rewrite Heof in Hclosed.
  simpl in Hclosed. unfold key_of in Hclosed.
  destruct (rr_line r) as [| k0 fields]; [discriminate |]. simpl in Hclosed.
  apply andb_true_iff in Hclosed as [Hlong Hother].
  apply Z.leb_le in Hlong. apply negb_true_iff in Hother.
  unfold first_field, go_bind at 1, go_ret at 1.
  destruct (Z.ltb_spec (len k0) n); [lia |].
  unfold has_prefix in Hother. unfold go_slice_to.
  rewrite (slice_to_Some k0 n) in * by lia.
  apply bool_decide_eq_false in Hother.
  unfold go_bind at 1, go_ret at 1.
  destruct (decide (substring 0 (Z.to_nat n) k0 <> indexKey)) as [_ | Heq];
    [reflexivity | contradiction].
Qed.

(** What the loop returns over a whole region, from [rows] on. *)
Lemma GetRowsByPartialKey_scan_result (n : Z) (indexKey rowKey : string) (limit : Z)
    (h : os_File) (region rest : list ReadResult) :
  0 <= n ->
  forallb (in_region n indexKey) region = true ->
  region_closed n indexKey rest = true ->
  forall (rows : list (list string)) (s : State),
  limit = -1 \/ Z.of_nat (length rows) < Z.max 1 limit ->
  fst (GetRowsByPartialKey_scan n indexKey rowKey limit h rows (region ++ rest) s)
  = Returns
      ((rows ++
        (if limit =? -1
         then map rr_line (List.filter (partial_match n indexKey rowKey) region)
         else take (Z.to_nat (Z.max 1 limit) - length rows)
                (map rr_line (List.filter (partial_match n indexKey rowKey) region))))%list,
       None).
Proof.
  intros Hn Hall Hclosed.
  induction region as [| x region IH]; intros rows s Hroom.
  - simpl. rewrite (GetRowsByPartialKey_scan_closed _ _ _ _ _ _ _ _ Hn Hclosed).
    simpl. destruct (limit =? -1); rewrite ?take_nil, app_nil_r; reflexivity.
  - simpl in Hall. apply andb_true_iff in Hall as [Hx Hall].
    specialize (IH Hall).
    change ((x :: region) ++ rest)%list with (x :: region ++ rest)%list.
    rewrite (GetRowsByPartialKey_scan_step _ _ _ _ _ _ _ _ _ Hx).
    cbn [List.filter].
    destruct (partial_match n indexKey rowKey x); [| apply IH; exact Hroom].
    rewrite length_app. cbn [length map].
    destruct (Z.leb_spec limit (Z.of_nat (length rows + 1))) as [Hfull | Hmore];
      destruct (Z.eqb_spec limit (-1)) as [Hall_rows | Hlimited]; cbn [andb negb fst].
    + rewrite IH by (left; exact Hall_rows).
      destruct (Z.eqb_spec limit (-1)); [| contradiction].
      rewrite <- app_assoc. reflexivity.
    + destruct Hroom as [Hroom | Hroom]; [contradiction |].
      replace (Z.to_nat (Z.max 1 limit) - length rows)%nat with 1%nat by lia.
      cbn [take]. rewrite take_0. reflexivity.
    + rewrite IH by (left; exact Hall_rows).
      destruct (Z.eqb_spec limit (-1)); [| contradiction].
      rewrite <- app_assoc. reflexivity.
    + rewrite IH by (right; rewrite length_app; cbn [length]; lia).
      destruct (Z.eqb_spec limit (-1)); [contradiction |].
      rewrite length_app. cbn [length].
      replace (Z.to_nat (Z.max 1 limit) - length rows)%nat
        with (S (Z.to_nat (Z.max 1 limit) - (length rows + 1)))%nat by lia.
      cbn [take]. rewrite <- app_assoc. reflexivity.
Qed.

(** The loop returns at the match that fills the limit, after one read
    for each record up to that match. *)
Lemma GetRowsByPartialKey_scan_cut (n : Z) (indexKey rowKey : string) (limit : Z)
    (h : os_File) (r : ReadResult) (rest : list ReadResult) :
  errors_Is (rr_err r) io_EOF = false ->
  partial_match n indexKey rowKey r = true ->
  limit <> -1 ->
  forall (before : list ReadResult) (rows : list (list string)) (s : State),
  forallb (in_region n indexKey) before = true ->
  Z.of_nat (length rows
            + length (List.filter (partial_match n indexKey rowKey) before)) + 1
  = Z.max 1 limit ->
  GetRowsByPartialKey_scan n indexKey rowKey limit h rows (before ++ r :: rest) s
  = (Returns
       ((rows ++ map rr_line (List.filter (partial_match n indexKey rowKey) before)
              ++ [rr_line r])%list, None),
     after_reads (S (length before)) h s).
Proof.
  intros Heof Hmatch Hlimited.
  assert (Hr : in_region n indexKey r = true).
  { unfold in_region. rewrite Heof. simpl. unfold partial_match in Hmatch.
    destruct (key_of r) as [k0 |]; [| discriminate].
    apply andb_true_iff in Hmatch as [-> _]. apply orb_true_r. }
  induction before as [| x before IH]; intros rows s Hall Hfill.
  - cbn [app List.filter length map] in Hfill |- *.
    rewrite (GetRowsByPartialKey_scan_step _ _ _ _ _ _ _ _ _ Hr).
    rewrite Hmatch, length_app. cbn [length].
    destruct (Z.leb_spec limit (Z.of_nat (length rows + 1))); [| lia].
    destruct (Z.eqb_spec limit (-1)); [contradiction |]. reflexivity.
  - simpl in Hall. apply andb_true_iff in Hall as [Hx Hall].
    change ((x :: before) ++ r :: rest)%list with (x :: before ++ r :: rest)%list.
    rewrite (GetRowsByPartialKey_scan_step _ _ _ _ _ _ _ _ _ Hx).
    cbn [List.filter] in Hfill |- *. cbn [length].
    rewrite <- (after_reads_S (S (length before)) h s).
    destruct (partial_match n indexKey rowKey x).
    + cbn [length map] in Hfill |- *. rewrite length_app. cbn [length].
      destruct (Z.leb_spec limit (Z.of_nat (length rows + 1))); [lia |].
      cbn [andb]. rewrite IH; [| exact Hall | rewrite length_app; cbn [length]; lia].
      rewrite <- app_assoc. reflexivity.
    + apply IH; assumption.
Qed.
End PartialKeyFacts.

(** C2, as the code has it.  Let the prefix of the query be indexed at
    [offset], the handle be granted and the seek succeed, and let the
    reader give, from [offset] on, the records [region] of the same-prefix
    region and then reach the end of the file or a record with another
    prefix.  [GetRowsByPartialKey] returns, in file order and with no
    error, the records of [region] that carry the prefix and whose first
    field contains the query, both lower-cased: all of them when [limit]
    is -1, the first [limit] of them when [limit] is at least 1, and the
    first one alone for any other [limit].  With a limit other than -1 it
    returns at the match that fills the limit, reading no further. *)
Theorem GetRowsByPartialKey_collects_the_matches `{!StringsLib} (s s1 : State)
    (rowKey indexKey : string) (n offset limit : Z) (h : os_File)
    (region rest : list ReadResult) :
  indexKeyLength (this s) = n ->
  slice_to rowKey n = Some indexKey ->
  index (this s) !! indexKey = Some offset ->
  acquireHandle s = (Returns (Some h, None), s1) ->
  w_seek (world s1) (file_name h) offset = None ->
  w_csv (world s1) (file_name h) offset = (region ++ rest)%list ->
  forallb (in_region n indexKey) region = true ->
  region_closed n indexKey rest = true ->
  fst (GetRowsByPartialKey rowKey limit s)
  = Returns
      (limit_rows limit
         (map rr_line (List.filter (partial_match n indexKey rowKey) region)), None) /\
  (forall (before after : list ReadResult) (r : ReadResult),
     region = (before ++ r :: after)%list ->
     partial_match n indexKey rowKey r = true ->
     limit <> -1 ->
     Z.of_nat (length (List.filter (partial_match n indexKey rowKey) before)) + 1
     = Z.max 1 limit ->
     w_ops (world (snd (GetRowsByPartialKey rowKey limit s)))
     = (repeat (OpRead h) (S (length before)) ++ OpSeek h offset :: w_ops (world s1))%list).
Proof.
  intros Hn Hslice Hidx Hacq Hseek Hcsv Hregion Hclosed. subst n.
  pose proof (GetRowsByPartialKey_runs_scan s s1 rowKey indexKey limit offset h
                Hslice Hidx Hacq Hseek) as Hrun.
  destruct (slice_to_bounds _ _ _ Hslice) as [[Hn _] _].
  rewrite Hcsv in Hrun. split.
  - rewrite Hrun. cbn [fst].
    rewrite (GetRowsByPartialKey_scan_result _ _ rowKey limit h _ _ Hn Hregion Hclosed).
    + unfold limit_rows. cbn [app length]. rewrite Nat.sub_0_r. reflexivity.
    + right. cbn [length]. lia.
  - intros before after r Hsplit Hmatch Hlimited Hfill. subst region.
    rewrite forallb_app in Hregion. apply andb_true_iff in Hregion as [Hbefore Hrest].
    cbn [forallb] in Hrest. apply andb_true_iff in Hrest as [Hr _].
    unfold in_region in Hr. apply andb_true_iff in Hr as [Heof _].
    apply negb_true_iff in Heof.
    rewrite Hrun. rewrite <- app_assoc. cbn [app].
    rewrite (GetRowsByPartialKey_scan_cut _ _ _ _ h r (after ++ rest) Heof Hmatch
               Hlimited before [] _ Hbefore) by (cbn [length]; lia).
    cbn [fst snd]. rewrite releaseHandle_world. reflexivity.
Qed.

Lemma GetRowsByPartialKey_collects_the_matches_witness :
  fst (GetRowsByPartialKey "cat" (-1) test_state)
  = Returns ([["cat"; "1"]; ["cats"; "2"]], None).
Proof.
  refine (proj1 (GetRowsByPartialKey_collects_the_matches test_state
            (snd (acquireHandle test_state)) "cat" "cat" 3 0 (-1) test_handle
            [row ["cat"; "1"]; row ["cats"; "2"]] [row ["bat"; "3"]; row ["dog"; "4"]]
            _ _ _ _ _ _ _ _));
    vm_compute; reflexivity.
Defined.

(** C2, as it is written, fails for a limit of 0: the region of "cat" has
    matches and one row is returned, which is more than the limit. *)
Lemma GetRowsByPartialKey_limit_0_returns_a_row :
  fst (GetRowsByPartialKey "cat" 0 test_state) = Returns ([["cat"; "1"]], None) /\
  ~ (forall rows e,
       fst (GetRowsByPartialKey "cat" 0 test_state) = Returns (rows, e) ->
       Z.of_nat (length rows) <= 0).
Proof.
  split; [vm_compute; reflexivity |].
  intros Hmost. specialize (Hmost [["cat"; "1"]] None).
  assert (Hrun : fst (GetRowsByPartialKey "cat" 0 test_state)
                 = Returns ([["cat"; "1"]], None)) by (vm_compute; reflexivity).
  specialize (Hmost Hrun). simpl in Hmost. lia.
Qed.

(** C9.  With a limit of 0 or below -1, when the region holds a match,
    [GetRowsByPartialKey] returns the first match and that row alone, right
    after the read that gave it. *)
Theorem GetRowsByPartialKey_degenerate_limit `{!StringsLib} (s s1 : State)
    (rowKey indexKey : string) (n offset limit : Z) (h : os_File)
    (before after : list ReadResult) (r : ReadResult) :
  indexKeyLength (this s) = n ->
  slice_to rowKey n = Some indexKey ->
  index (this s) !! indexKey = Some offset ->
  acquireHandle s = (Returns (Some h, None), s1) ->
  w_seek (world s1) (file_name h) offset = None ->
  w_csv (world s1) (file_name h) offset = (before ++ r :: after)%list ->
  forallb (fun x => in_region n indexKey x && negb (partial_match n indexKey rowKey x))
    before = true ->
  errors_Is (rr_err r) io_EOF = false ->
  partial_match n indexKey rowKey r = true ->
  limit <= 0 ->
  limit <> -1 ->
  fst (GetRowsByPartialKey rowKey limit s) = Returns ([rr_line r], None) /\
  w_ops (world (snd (GetRowsByPartialKey rowKey limit s)))
  = (repeat (OpRead h) (S (length before)) ++ OpSeek h offset :: w_ops (world s1))%list.
Proof.
  intros Hn Hslice Hidx Hacq Hseek Hcsv Hbefore Heof Hmatch Hlow Hlimited. subst n.
  pose proof (GetRowsByPartialKey_runs_scan s s1 rowKey indexKey limit offset h
                Hslice Hidx Hacq Hseek) as Hrun.
  rewrite Hcsv in Hrun.
  assert (Hnone : List.filter (partial_match (indexKeyLength (this s)) indexKey rowKey)
                    before = []
                  /\ forallb (in_region (indexKeyLength (this s)) indexKey) before = true).
  { clear -Hbefore. induction before as [| x before IH]; [split; reflexivity |].
    cbn [forallb] in Hbefore. apply andb_true_iff in Hbefore as [Hx Hbefore].
    apply andb_true_iff in Hx as [Hreg Hno]. apply negb_true_iff in Hno.
    destruct (IH Hbefore) as [IHf IHr].
    cbn [List.filter forallb]. rewrite Hno, Hreg, IHr. split; [exact IHf | reflexivity]. }
  destruct Hnone as [Hnone Hregion].
  rewrite (GetRowsByPartialKey_scan_cut _ _ _ _ h r after Heof Hmatch Hlimited
             before [] _ Hregion) in Hrun by (rewrite Hnone; cbn [length]; lia).
  rewrite Hnone in Hrun. rewrite Hrun. cbn [fst snd map app].
  rewrite releaseHandle_world. split; reflexivity.
Qed.

Lemma GetRowsByPartialKey_degenerate_limit_witness :
  fst (GetRowsByPartialKey "cats" (-2) test_state) = Returns ([["cats"; "2"]], None).
Proof.
  refine (proj1 (GetRowsByPartialKey_degenerate_limit test_state
            (snd (acquireHandle test_state)) "cats" "cat" 3 0 (-2) test_handle
            [row ["cat"; "1"]] [row ["bat"; "3"]; row ["dog"; "4"]] (row ["cats"; "2"])
            _ _ _ _ _ _ _ _ _ _ _));
    vm_compute; try reflexivity.
  - discriminate.
  - discriminate.
Defined.

(** ** Construction *)

(** The loading loop over an index file of two columns: it returns, and
    the map it returns holds for each prefix the offset of the last line
    that carries it with an integer offset, over what was there before. *)
Lemma NewFileIndex_load_two_columns (indexFile : os_File) (reader : list ReadResult) :
  forallb two_columns (before_EOF reader) = true ->
  forall (index0 : gmap string Z) (w : World),
  exists index1 : gmap string Z,
    fst (NewFileIndex_load indexFile reader index0 w) = Returns index1 /\
    forall key : string,
      index1 !! key = match last_entry key (before_EOF reader) with
                      | Some offset => Some offset
                      | None => index0 !! key
                      end.
Proof.
  induction reader as [| x reader IH]; intros Hcols index0 w.
  - exists index0. split; reflexivity.
  - cbn [NewFileIndex_load before_EOF] in *. unfold go_bind at 1. unfold os_log at 1.
    destruct (errors_Is (rr_err x) io_EOF) eqn:Heof.
    + exists index0. split; reflexivity.
    + cbn [forallb] in Hcols. apply andb_true_iff in Hcols as [Hx Hcols].
      unfold two_columns in Hx. cbn [last_entry]. unfold index_entry.
      destruct (rr_line x) as [| key [| field fields]]; try discriminate.
      unfold first_field, second_field, go_bind at 1, go_ret at 1.
      unfold go_bind at 1, go_ret at 1.
      destruct (ParseInt field) as [offset |].
      * destruct (IH Hcols (<[key := offset]> index0) (world_log (OpRead indexFile) w))
          as [index1 [Hrun Hlook]].
        exists index1. split; [exact Hrun |].
        intros k. rewrite Hlook.
        destruct (last_entry k (before_EOF reader)); [reflexivity |].
        rewrite lookup_insert. destruct (decide (key = k)); reflexivity.
      * destruct (IH Hcols index0 (world_log (OpRead indexFile) w))
          as [index1 [Hrun Hlook]].
        exists index1. split; [exact Hrun |].
        intros k. rewrite Hlook.
        destruct (last_entry k (before_EOF reader)); reflexivity.
Qed.

(** Over an index file of two columns, once both paths exist and the index
    file opens, [NewFileIndex] returns an engine and no error; a line whose
    offset is not an integer leaves no entry, and of the lines of one
    prefix the last one gives the offset. *)
Lemma NewFileIndex_loads_the_index (config : Config) (w : World) :
  errors_Is (w_stat w (DataCsvPath config)) os_ErrNotExist = false ->
  errors_Is (w_stat w (IndexCsvPath config)) os_ErrNotExist = false ->
  w_open w (IndexCsvPath config) = None ->
  forallb two_columns (before_EOF (w_csv w (IndexCsvPath config) 0)) = true ->
  exists f : FileIndex,
    fst (NewFileIndex config w) = Returns (Some f, None) /\
    forall key : string,
      index f !! key = last_entry key (before_EOF (w_csv w (IndexCsvPath config) 0)).
Proof.
  intros Hdata Hindex Hopen Hcols.
  unfold NewFileIndex. unfold go_bind at 1. unfold os_Stat at 1. rewrite Hdata.
  unfold go_bind at 1. unfold os_Stat at 1. cbn [w_stat world_log]. rewrite Hindex.
  unfold go_bind at 1. unfold os_Open. cbn [w_open world_log]. rewrite Hopen.
  unfold go_bind at 1. unfold csv_NewReader at 1.
  cbn [w_csv world_fresh_fd world_log file_name]. unfold go_bind at 1.
  match goal with
  | |- context [NewFileIndex_load ?file ?reader ?m ?w'] =>
      destruct (NewFileIndex_load_two_columns file reader Hcols m w')
        as [index1 [Hrun Hlook]];
      destruct (NewFileIndex_load file reader m w') as [res w1]
  end.
  cbn [fst] in Hrun. subst res. unfold go_ret. cbn [fst].
  eexists. split; [reflexivity |]. cbn [index].
  intros key. rewrite Hlook.
  destruct (last_entry key (before_EOF (w_csv w (IndexCsvPath config) 0)));
    [reflexivity | apply lookup_empty].
Qed.

(** [NewFileIndex] returns an error only when a path does not exist or the
    index file does not open. *)
Lemma NewFileIndex_error_only_if (config : Config) (w : World)
    (f : option FileIndex) (e : error) :
  fst (NewFileIndex config w) = Returns (f, Some e) ->
  errors_Is (w_stat w (DataCsvPath config)) os_ErrNotExist = true \/
  errors_Is (w_stat w (IndexCsvPath config)) os_ErrNotExist = true \/
  w_open w (IndexCsvPath config) <> None.
Proof.
  unfold NewFileIndex. unfold go_bind at 1. unfold os_Stat at 1.
  destruct (errors_Is (w_stat w (DataCsvPath config)) os_ErrNotExist);
    [left; reflexivity |].
  unfold go_bind at 1. unfold os_Stat at 1. cbn [w_stat world_log].
  destruct (errors_Is (w_stat w (IndexCsvPath config)) os_ErrNotExist);
    [right; left; reflexivity |].
  unfold go_bind at 1. unfold os_Open. cbn [w_open world_log].
  destruct (w_open w (IndexCsvPath config)) as [e1 |]; [right; right; discriminate |].
  unfold go_bind at 1. unfold csv_NewReader at 1. unfold go_bind at 1.
  match goal with
  | |- context [NewFileIndex_load ?file ?reader ?m ?w'] =>
      destruct (NewFileIndex_load file reader m w') as [[index1 | msg] w1]
  end; discriminate.
Qed.

(** C6.  On the test index file, the line with an offset that is not an
    integer is passed over and the last line of each prefix gives the
    offset, and no error is returned.  On an index file with a line of one
    column, construction does not return: it panics on the second column. *)
Theorem NewFileIndex_panics_on_a_line_of_one_column :
  (fst (NewFileIndex test_config (test_world true test_data test_index_lines))
   = Returns (Some test_FileIndex, None)) /\
  (fst (NewFileIndex test_config (test_world true test_data test_index_lines_short))
   = Panics "index out of range [1] with length 1").
Proof. split; vm_compute; reflexivity. Qed.

(** ** The frame of the lookups *)

Lemma keeps_this_frame {A} (m : Go State A) : keeps_this m -> keeps_frame m.
Proof. intros H s. rewrite H. reflexivity. Qed.

Lemma keeps_this_ret {A} (a : A) : keeps_this (go_ret a).
Proof. intros s. reflexivity. Qed.

Lemma keeps_this_panic {A} (msg : string) : keeps_this (@go_panic State A msg).
Proof. intros s. reflexivity. Qed.

Lemma keeps_this_bind {A B} (m : Go State A) (k : A -> Go State B) :
  keeps_this m -> (forall a, keeps_this (k a)) -> keeps_this (go_bind m k).
Proof.
  intros Hm Hk s. unfold go_bind. specialize (Hm s).
  destruct (m s) as [[a | msg] s1]; simpl in *; [| exact Hm].
  rewrite Hk. exact Hm.
Qed.

Lemma keeps_frame_bind {A B} (m : Go State A) (k : A -> Go State B) :
  keeps_frame m -> (forall a, keeps_frame (k a)) -> keeps_frame (go_bind m k).
Proof.
  intros Hm Hk s. unfold go_bind. specialize (Hm s).
  destruct (m s) as [[a | msg] s1]; simpl in *; [| exact Hm].
  rewrite Hk. exact Hm.
Qed.

Lemma keeps_frame_defer {A} (d : Go State unit) (body : Go State A) :
  keeps_frame d -> keeps_frame body -> keeps_frame (defer_ d body).
Proof.
  intros Hd Hbody s. unfold defer_. specialize (Hbody s).
  destruct (body s) as [r s1]. specialize (Hd s1).
  destruct (d s1) as [[[] | msg] s2]; simpl in *; congruence.
Qed.

Lemma keeps_this_log_op (op : FileOp) : keeps_this (log_op op).
Proof. intros s. reflexivity. Qed.

Lemma keeps_this_get_this : keeps_this get_this.
Proof. intros s. reflexivity. Qed.

Lemma keeps_this_in_world {A} (m : Go World A) : keeps_this (in_world m).
Proof. intros s. unfold in_world. destruct (m (world s)). reflexivity. Qed.

Lemma keeps_this_file_Seek (h : os_File) (offset : Z) : keeps_this (file_Seek h offset).
Proof. intros s. reflexivity. Qed.

Lemma keeps_this_first_field (line : list string) : keeps_this (first_field line).
Proof. destruct line; [apply keeps_this_panic | apply keeps_this_ret]. Qed.

Lemma keeps_this_go_slice_to (k : string) (n : Z) : keeps_this (go_slice_to k n).
Proof.
  unfold go_slice_to. destruct (slice_to k n);
    [apply keeps_this_ret | apply keeps_this_panic].
Qed.

Create HintDb frame.
#[local] Hint Resolve keeps_this_ret keeps_this_panic keeps_this_log_op
  keeps_this_get_this keeps_this_in_world keeps_this_file_Seek
  keeps_this_first_field keeps_this_go_slice_to
  keeps_this_frame : frame.

Ltac keeps_step :=
  match goal with
  | |- keeps_this (go_bind _ _) => apply keeps_this_bind; [| intros ?]
  | |- keeps_frame (go_bind _ _) => apply keeps_frame_bind; [| intros ?]
  | |- keeps_frame (defer_ _ _) => apply keeps_frame_defer
  | |- context [match ?x with _ => _ end] => destruct x
  | |- _ => solve [auto with frame]
  end.

Lemma keeps_this_GetRow_scan (n : Z) (indexKey rowKey : string) (h : os_File)
    (reader : list ReadResult) :
  keeps_this (GetRow_scan n indexKey rowKey h reader).
Proof.
  induction reader as [| x reader IH]; cbn [GetRow_scan]; repeat keeps_step.
Qed.

Lemma keeps_this_GetRowsByPartialKey_scan `{!StringsLib} (n : Z)
    (indexKey rowKey : string) (limit : Z) (h : os_File) (reader : list ReadResult) :
  forall rows, keeps_this (GetRowsByPartialKey_scan n indexKey rowKey limit h rows reader).
Proof.
  induction reader as [| x reader IH]; intros rows; cbn [GetRowsByPartialKey_scan];
    repeat keeps_step.
Qed.

Lemma keeps_frame_modify_this (g : FileIndex -> FileIndex) :
  (forall f, frame_of (g f) = frame_of f) -> keeps_frame (modify_this g).
Proof. intros Hg s. apply Hg. Qed.

Lemma keeps_frame_atomic_AddInt32 (delta : Z) :
  keeps_frame (atomic_AddInt32_openHandleCount delta).
Proof. apply keeps_frame_modify_this. intros f. reflexivity. Qed.

Lemma keeps_frame_pool_Get : keeps_frame pool_Get.
Proof.
  unfold pool_Get, pool_New. repeat keeps_step.
  apply keeps_frame_modify_this. intros f. reflexivity.
Qed.

Lemma keeps_frame_acquireHandle : keeps_frame acquireHandle.
Proof.
  unfold acquireHandle, atomic_LoadInt32_openHandleCount, assert_File.
  repeat keeps_step.
  - apply keeps_frame_atomic_AddInt32.
  - apply keeps_frame_pool_Get.
Qed.

Lemma keeps_frame_releaseHandle (handle : option os_File) :
  keeps_frame (releaseHandle handle).
Proof.
  unfold releaseHandle, pool_Put. repeat keeps_step.
  - apply keeps_frame_atomic_AddInt32.
  - apply keeps_frame_modify_this. intros f. reflexivity.
Qed.

#[local] Hint Resolve keeps_this_GetRow_scan keeps_this_GetRowsByPartialKey_scan
  keeps_frame_acquireHandle keeps_frame_releaseHandle : frame.

Lemma keeps_frame_GetRow (rowKey : string) : keeps_frame (GetRow rowKey).
Proof. unfold GetRow. repeat keeps_step. Qed.

Lemma keeps_frame_GetRowsByPartialKey `{!StringsLib} (rowKey : string) (limit : Z) :
  keeps_frame (GetRowsByPartialKey rowKey limit).
Proof. unfold GetRowsByPartialKey. repeat keeps_step. Qed.

Lemma acquireHandle_granted (s s1 : State) (h : os_File) :
  acquireHandle s = (Returns (Some h, None), s1) ->
  openHandleCount (this s1) = wrap32 (openHandleCount (this s) + 1).
Proof.
  intros Hacq.
  destruct (Z.lt_ge_cases (concurrentHandleLimit (this s)) (openHandleCount (this s)))
    as [Hover | Hle].
  - rewrite (acquireHandle_over_limit s Hover) in Hacq. discriminate.
  - pose proof (acquireHandle_at_or_below_limit s Hle) as Hcount.
    rewrite Hacq in Hcount. exact Hcount.
Qed.

Lemma defer_releaseHandle_count {A} (h : os_File) (body : Go State A) (s1 : State) :
  keeps_this body ->
  openHandleCount (this (snd (defer_ (releaseHandle (Some h)) body s1)))
  = wrap32 (openHandleCount (this s1) + -1).
Proof.
  intros Hbody. rewrite defer_releaseHandle. cbn [snd].
  change (openHandleCount (this (snd (releaseHandle (Some h) (snd (body s1))))))
    with (wrap32 (openHandleCount (this (snd (body s1))) + -1)).
  rewrite Hbody. reflexivity.
Qed.

(** When the handle is granted, [GetRow] gives the counter back its value. *)
Lemma GetRow_restores_count (s s1 : State) (rowKey : string) (h : os_File) :
  int32_range (openHandleCount (this s)) ->
  acquireHandle s = (Returns (Some h, None), s1) ->
  openHandleCount (this (snd (GetRow rowKey s))) = openHandleCount (this s).
Proof.
  intros Hrange Hacq. pose proof (acquireHandle_granted s s1 h Hacq) as Hcount.
  unfold GetRow. unfold go_bind at 1. unfold get_this at 1.
  destruct (len rowKey <? indexKeyLength (this s)); [reflexivity |].
  unfold go_bind at 1. unfold go_slice_to.
  destruct (slice_to rowKey (indexKeyLength (this s))) as [indexKey |];
    [| reflexivity].
  unfold go_ret at 1.
  destruct (index (this s) !! indexKey) as [offset |]; [| reflexivity].
  unfold go_bind at 1. rewrite Hacq. cbv beta iota.
  rewrite defer_releaseHandle_count; [| repeat keeps_step].
  rewrite Hcount. apply wrap32_incr_decr. exact Hrange.
Qed.

Lemma GetRowsByPartialKey_restores_count `{!StringsLib} (s s1 : State)
    (rowKey : string) (limit : Z) (h : os_File) :
  int32_range (openHandleCount (this s)) ->
  acquireHandle s = (Returns (Some h, None), s1) ->
  openHandleCount (this (snd (GetRowsByPartialKey rowKey limit s)))
  = openHandleCount (this s).
Proof.
  intros Hrange Hacq. pose proof (acquireHandle_granted s s1 h Hacq) as Hcount.
  unfold GetRowsByPartialKey. unfold go_bind at 1. unfold get_this at 1.
  destruct (len rowKey <? indexKeyLength (this s)); [reflexivity |].
  unfold go_bind at 1. unfold go_slice_to.
  destruct (slice_to rowKey (indexKeyLength (this s))) as [indexKey |];
    [| reflexivity].
  unfold go_ret at 1.
  destruct (index (this s) !! indexKey) as [offset |]; [| reflexivity].
  unfold go_bind at 1. rewrite Hacq. cbv beta iota.
  rewrite defer_releaseHandle_count; [| repeat keeps_step].
  rewrite Hcount. apply wrap32_incr_decr. exact Hrange.
Qed.

(** C10.  Whatever the key, the limit and the state, and however the call
    ends (a result, an error or a panic), [GetRow] and
    [GetRowsByPartialKey] leave the index map, the paths, the handle
    limit, the prefix length and the warm-up settings of the engine as
    they were: only the counter and the idle handles can differ.  When the
    handle is granted, the counter is back at its value when the call
    ends. *)
Theorem lookups_change_only_counter_and_pool `{!StringsLib} (s : State)
    (rowKey : string) (limit : Z) :
  frame_of (this (snd (GetRow rowKey s))) = frame_of (this s) /\
  frame_of (this (snd (GetRowsByPartialKey rowKey limit s))) = frame_of (this s) /\
  (forall (h : os_File) (s1 : State),
     int32_range (openHandleCount (this s)) ->
     acquireHandle s = (Returns (Some h, None), s1) ->
     openHandleCount (this (snd (GetRow rowKey s))) = openHandleCount (this s) /\
     openHandleCount (this (snd (GetRowsByPartialKey rowKey limit s)))
     = openHandleCount (this s)).
Proof.
  split; [apply keeps_frame_GetRow |].
  split; [apply keeps_frame_GetRowsByPartialKey |].
  intros h s1 Hrange Hacq. split.
  - eapply GetRow_restores_count; eassumption.
  - eapply GetRowsByPartialKey_restores_count; eassumption.
Qed.

Lemma lookups_change_only_counter_and_pool_witness :
  openHandleCount (this (snd (GetRow "cats" test_state))) = 0 /\
  openHandleCount (this (snd (GetRowsByPartialKey "cats" 1 test_state))) = 0.
Proof.
  refine (proj2 (proj2 (lookups_change_only_counter_and_pool test_state "cats" 1))
            test_handle (snd (acquireHandle test_state)) _ _).
  - vm_compute. split; [discriminate | reflexivity].
  - vm_compute. reflexivity.
Defined.

(** * Further properties of the code *)

(** ** The handle pool, call after call *)

Lemma frame_of_limit (f f' : FileIndex) :
  frame_of f = frame_of f' -> concurrentHandleLimit f = concurrentHandleLimit f'.
Proof. unfold frame_of. intros H. injection H. intros. assumption. Qed.

Lemma releaseHandle_count (h : os_File) (s : State) :
  openHandleCount (this (snd (releaseHandle (Some h) s)))
  = wrap32 (openHandleCount (this s) + -1).
Proof. reflexivity. Qed.

Lemma wrap32_small (z : Z) : - 2 ^ 31 <= z < 2 ^ 31 -> wrap32 z = z.
Proof. intros H. unfold wrap32. rewrite Z.mod_small; lia. Qed.

(** The invariant of a run of pool calls: the counter is at least the
    number of handles held and at most one above the limit. *)
Lemma run_calls_invariant (calls : list PoolCall) :
  forall (held : list os_File) (s : State),
  concurrentHandleLimit (this s) + 1 < 2 ^ 31 ->
  Z.of_nat (length held) <= openHandleCount (this s) ->
  openHandleCount (this s) <= concurrentHandleLimit (this s) + 1 ->
  concurrentHandleLimit (this (snd (run_calls calls held s)))
  = concurrentHandleLimit (this s) /\
  Z.of_nat (length (fst (run_calls calls held s)))
  <= openHandleCount (this (snd (run_calls calls held s))) /\
  openHandleCount (this (snd (run_calls calls held s)))
  <= concurrentHandleLimit (this s) + 1.
Proof.
  induction calls as [| call calls IH]; intros held s Hmax Hheld Hbound.
  - simpl. auto.
  - destruct call; cbn [run_calls].
    + pose proof (keeps_frame_acquireHandle s) as Hframe.
      apply frame_of_limit in Hframe.
      assert (Hstep : openHandleCount (this (snd (acquireHandle s)))
                      <= concurrentHandleLimit (this s) + 1
                      /\ openHandleCount (this s)
                         <= openHandleCount (this (snd (acquireHandle s)))
                      /\ (forall h e, fst (acquireHandle s) = Returns (Some h, e) ->
                          openHandleCount (this s) + 1
                          <= openHandleCount (this (snd (acquireHandle s))))).
      { destruct (Z.lt_ge_cases (concurrentHandleLimit (this s))
                    (openHandleCount (this s))) as [Hover | Hle].
        - rewrite (acquireHandle_over_limit s Hover). cbn [fst snd].
          repeat split; try lia. intros h e [=].
        - rewrite (acquireHandle_at_or_below_limit s Hle).
          rewrite wrap32_small by lia. repeat split; lia. }
      destruct Hstep as [Hup [Hlow Hgrant]].
      destruct (acquireHandle s) as [[[[h |] e] | msg] s1]; cbn [fst snd] in *.
      * specialize (Hgrant h e eq_refl).
        destruct (IH (h :: held) s1) as [IH1 [IH2 IH3]];
          cbn [length]; rewrite ?Hframe; lia.
      * destruct (IH held s1) as [IH1 [IH2 IH3]]; rewrite ?Hframe; lia.
      * destruct (IH held s1) as [IH1 [IH2 IH3]]; rewrite ?Hframe; lia.
    + destruct held as [| h held'].
      * apply IH; assumption.
      * pose proof (keeps_frame_releaseHandle (Some h) s) as Hframe.
        apply frame_of_limit in Hframe.
        pose proof (releaseHandle_count h s) as Hcount.
        cbn [length] in Hheld. rewrite wrap32_small in Hcount by lia.
        destruct (IH held' (snd (releaseHandle (Some h) s))) as [IH1 [IH2 IH3]];
          rewrite ?Hframe, ?Hcount; lia.
Qed.

(** X1.  Whatever sequence of [acquireHandle] and [releaseHandle] calls is
    made one at a time on an engine whose counter starts between 0 and the
    limit plus one, each release giving back a handle that was granted and
    is still held, the counter never goes above the limit plus one and never
    below the number of handles held. *)
Theorem sequential_calls_keep_counter_within_limit_plus_one
    (calls : list PoolCall) (s : State) :
  concurrentHandleLimit (this s) + 1 < 2 ^ 31 ->
  0 <= openHandleCount (this s) <= concurrentHandleLimit (this s) + 1 ->
  Z.of_nat (length (fst (run_calls calls [] s)))
  <= openHandleCount (this (snd (run_calls calls [] s)))
  /\ openHandleCount (this (snd (run_calls calls [] s)))
     <= concurrentHandleLimit (this s) + 1.
Proof.
  intros Hmax [Hlow Hup].
  destruct (run_calls_invariant calls [] s Hmax) as [_ [H1 H2]];
    cbn [length]; lia.
Qed.

Lemma sequential_calls_keep_counter_within_limit_plus_one_witness :
  Z.of_nat (length (fst (run_calls [Acquire; Acquire; Release; Acquire; Acquire; Acquire]
                           [] test_state)))
  <= openHandleCount
       (this (snd (run_calls [Acquire; Acquire; Release; Acquire; Acquire; Acquire]
                     [] test_state)))
  /\ openHandleCount
       (this (snd (run_calls [Acquire; Acquire; Release; Acquire; Acquire; Acquire]
                     [] test_state)))
     <= concurrentHandleLimit (this test_state) + 1.
Proof.
  apply (sequential_calls_keep_counter_within_limit_plus_one
           [Acquire; Acquire; Release; Acquire; Acquire; Acquire] test_state).
  - vm_compute. reflexivity.
  - vm_compute. split; discriminate.
Defined.



(** X3.  [acquireHandle] ends in one of three ways only: it refuses with
    [TooManyConcurrentHandlesError], it grants a handle with a nil error, or
    it panics in the type assertion.  It never returns
    [InvalidHandleError], and never a handle together with an error. *)
Theorem acquireHandle_has_three_outcomes (s : State) :
  fst (acquireHandle s) = Returns (None, Some TooManyConcurrentHandlesError) \/
  (exists h : os_File, fst (acquireHandle s) = Returns (Some h, None)) \/
  fst (acquireHandle s)
  = Panics "interface conversion: interface {} is nil, not *os.File".
Proof.
  unfold acquireHandle, atomic_LoadInt32_openHandleCount,
    atomic_AddInt32_openHandleCount, pool_Get, pool_New, in_world, os_Open,
    assert_File, modify_this, go_bind, get_this, go_ret, go_panic.
  cbn.
  destruct (concurrentHandleLimit (this s) <? openHandleCount (this s));
    [left; reflexivity |].
  cbn. destruct (pool_idle (pool (this s))) as [| h rest]; cbn.
  - destruct (w_open (world s) (pool_path (pool (this s)))) as [e |]; cbn.
    + right; right. reflexivity.
    + right; left. eexists. reflexivity.
  - right; left. exists h. reflexivity.
Qed.



(** ** Warming up *)

Lemma after_opens_0 (s : State) : after_opens 0 s = s.
Proof.
  destruct s as [f w]. destruct f as [d i l wu wc wd n [pp idle] c ix].
  destruct w as [? ? ? ? fd0 ops]. unfold after_opens, set_openHandleCount. cbn.
  rewrite Z.add_0_r, Nat.add_0_r. reflexivity.
Qed.

Lemma after_opens_S (m : nat) (s : State) :
  after_opens m (after_opens 1 s) = after_opens (S m) s.
Proof.
  destruct s as [f w]. destruct f as [d i l wu wc wd n [pp idle] c ix].
  destruct w as [? ? ? ? fd0 ops]. unfold after_opens, set_openHandleCount. cbn.
  f_equal; f_equal; try lia.
  change (OpOpen pp :: ops)%list with ([OpOpen pp] ++ ops)%list.
  rewrite app_assoc, <- repeat_cons. reflexivity.
Qed.

(** An admitted call on an empty pool over a data file that opens. *)
Lemma acquireHandle_opens (s : State) :
  pool_idle (pool (this s)) = [] ->
  w_open (world s) (pool_path (pool (this s))) = None ->
  - 2 ^ 31 <= openHandleCount (this s) ->
  openHandleCount (this s) <= concurrentHandleLimit (this s) ->
  openHandleCount (this s) + 1 < 2 ^ 31 ->
  acquireHandle s
  = (Returns (Some (mk_File (pool_path (pool (this s))) (w_next_fd (world s))), None),
     after_opens 1 s).
Proof.
  intros Hidle Hopen Hlow Hle Hmax.
  destruct s as [f w]. destruct f as [d i l wu wc wd n [pp idle] c ix].
  destruct w as [? ? ? ? fd0 ops]. cbn in *. subst idle.
  unfold acquireHandle, atomic_LoadInt32_openHandleCount,
    atomic_AddInt32_openHandleCount, pool_Get, pool_New, in_world, os_Open,
    assert_File, modify_this, go_bind, get_this, go_ret, after_opens,
    set_openHandleCount. cbn.
  destruct (Z.ltb_spec l c); [lia |]. cbn. rewrite Hopen. cbn.
  rewrite wrap32_small by lia. rewrite Nat.add_1_r. reflexivity.
Qed.

(** The first [m] turns of the acquiring loop, when all are admitted. *)
Lemma WarmUp_acquire_admitted (m r : nat) :
  forall (handles : list (option os_File)) (s : State),
  pool_idle (pool (this s)) = [] ->
  w_open (world s) (pool_path (pool (this s))) = None ->
  - 2 ^ 31 <= openHandleCount (this s) ->
  openHandleCount (this s) + Z.of_nat m <= concurrentHandleLimit (this s) + 1 ->
  openHandleCount (this s) + Z.of_nat m < 2 ^ 31 ->
  WarmUp_acquire (m + r) handles s
  = WarmUp_acquire r
      (handles ++ map Some (fresh_handles (pool_path (pool (this s)))
                              (w_next_fd (world s)) m))%list
      (after_opens m s).
Proof.
  induction m as [| m IH]; intros handles s Hidle Hopen Hlow Hle Hmax.
  - cbn. rewrite app_nil_r, after_opens_0. reflexivity.
  - change (S m + r)%nat with (S (m + r)). cbn [WarmUp_acquire].
    unfold go_bind at 1.
    rewrite (acquireHandle_opens s Hidle Hopen Hlow) by lia.
    unfold go_bind at 1. unfold get_this at 1. unfold go_bind at 1.
    unfold time_Sleep, go_ret at 1.
    rewrite IH; cbn [after_opens this world pool pool_idle pool_path
                       set_openHandleCount openHandleCount concurrentHandleLimit
                       w_open w_next_fd]; try assumption; try lia.
    rewrite after_opens_S. unfold fresh_handles. cbn [seq map].
    rewrite <- app_assoc, Nat.add_1_r. reflexivity.
Qed.


Lemma keeps_frame_WarmUp_acquire (todo : nat) :
  forall handles, keeps_frame (WarmUp_acquire todo handles).
Proof.
  induction todo as [| todo IH]; intros handles; cbn [WarmUp_acquire];
    unfold time_Sleep; repeat keeps_step.
Qed.

Lemma keeps_frame_WarmUp_release (handles : list (option os_File)) :
  keeps_frame (WarmUp_release handles).
Proof.
  induction handles as [| handle handles IH]; cbn [WarmUp_release];
    repeat keeps_step.
Qed.



(** X6.  [WarmUp] asked for more handles than the counter has room for, on
    an empty pool over a data file that opens: it returns
    [TooManyConcurrentHandlesError] and gives none of the handles it took
    back.  The counter stays one above the limit and the pool stays empty,
    so that the next [acquireHandle] is refused too. *)
Theorem WarmUp_beyond_the_limit_keeps_its_handles (s : State) :
  pool_idle (pool (this s)) = [] ->
  w_open (world s) (pool_path (pool (this s))) = None ->
  - 2 ^ 31 <= openHandleCount (this s) <= concurrentHandleLimit (this s) + 1 ->
  concurrentHandleLimit (this s) + 1 < 2 ^ 31 ->
  concurrentHandleLimit (this s) + 1 - openHandleCount (this s) < warmUpCount (this s) ->
  fst (WarmUp s) = Returns (Some TooManyConcurrentHandlesError) /\
  openHandleCount (this (snd (WarmUp s))) = concurrentHandleLimit (this s) + 1 /\
  pool_idle (pool (this (snd (WarmUp s)))) = [] /\
  fst (acquireHandle (snd (WarmUp s)))
  = Returns (None, Some TooManyConcurrentHandlesError).
Proof.
  intros Hidle Hopen [Hlow Hup] Hmax Hmore.
  set (m := Z.to_nat (concurrentHandleLimit (this s) + 1 - openHandleCount (this s))).
  assert (Hsplit : exists r, Z.to_nat (warmUpCount (this s)) = (m + S r)%nat).
  { exists (Z.to_nat (warmUpCount (this s)) - m - 1)%nat. unfold m. lia. }
  destruct Hsplit as [r Hsplit].
  assert (Hm : openHandleCount (this s) + Z.of_nat m = concurrentHandleLimit (this s) + 1)
    by (unfold m; lia).
  assert (Hover : concurrentHandleLimit (this (after_opens m s))
                  < openHandleCount (this (after_opens m s))) by (cbn; lia).
  assert (Hrun : WarmUp s = (Returns (Some TooManyConcurrentHandlesError),
                             after_opens m s)).
  { unfold WarmUp. unfold go_bind at 1. unfold get_this at 1. rewrite Hsplit.
    unfold go_bind at 1.
    rewrite (WarmUp_acquire_admitted m (S r) [] s Hidle Hopen Hlow) by lia.
    cbn [WarmUp_acquire]. unfold go_bind at 1.
    rewrite (acquireHandle_over_limit _ Hover). reflexivity. }
  rewrite Hrun. cbn [fst snd].
  rewrite (acquireHandle_over_limit _ Hover).
  cbn [fst snd this world pool pool_idle after_opens set_openHandleCount
         openHandleCount].
  repeat split; solve [assumption | lia].
Qed.

Lemma WarmUp_beyond_the_limit_keeps_its_handles_witness :
  fst (WarmUp test_state_eager) = Returns (Some TooManyConcurrentHandlesError) /\
  openHandleCount (this (snd (WarmUp test_state_eager))) = 3.
Proof.
  pose proof (WarmUp_beyond_the_limit_keeps_its_handles test_state_eager) as H.
  destruct H as [Hret [Hcount _]]; try (vm_compute; reflexivity).
  - vm_compute. split; discriminate.
  - split; [exact Hret | exact Hcount].
Defined.

(** X7.  With a [warmUpCount] of zero or below, [WarmUp] returns nil and
    leaves the whole state as it was: no handle is taken and no file is
    opened. *)
Theorem WarmUp_of_no_handles_does_nothing (s : State) :
  warmUpCount (this s) <= 0 ->
  WarmUp s = (Returns None, s).
Proof.
  intros Hnone. unfold WarmUp. unfold go_bind at 1. unfold get_this at 1.
  replace (Z.to_nat (warmUpCount (this s))) with 0%nat by lia.
  reflexivity.
Qed.

Lemma WarmUp_of_no_handles_does_nothing_witness :
  WarmUp test_state_cold = (Returns None, test_state_cold).
Proof.
  apply (WarmUp_of_no_handles_does_nothing test_state_cold).
  vm_compute. discriminate.
Defined.

(** X8.  However it ends (nil, an error or a panic), [WarmUp] leaves the
    index map, the paths, the limit, the prefix length and the warm-up
    settings of the engine as they were. *)
Theorem WarmUp_keeps_the_frame (s : State) :
  frame_of (this (snd (WarmUp s))) = frame_of (this s).
Proof.
  revert s. change (keeps_frame WarmUp). unfold WarmUp.
  pose proof keeps_frame_WarmUp_acquire. pose proof keeps_frame_WarmUp_release.
  repeat keeps_step.
Qed.

(** ** The lookups, on their other paths *)

(** X9.  When the counter is above the limit, a lookup whose prefix is
    indexed returns [TooManyConcurrentHandlesError] as [acquireHandle] gave
    it, with no row, and leaves the whole state as it was: nothing is
    sought or read. *)
Theorem lookups_over_the_limit_are_refused `{!StringsLib} (s : State)
    (rowKey indexKey : string) (offset limit : Z) :
  slice_to rowKey (indexKeyLength (this s)) = Some indexKey ->
  index (this s) !! indexKey = Some offset ->
  concurrentHandleLimit (this s) < openHandleCount (this s) ->
  GetRow rowKey s = (Returns (None, Some TooManyConcurrentHandlesError), s) /\
  GetRowsByPartialKey rowKey limit s
  = (Returns ([], Some TooManyConcurrentHandlesError), s).
Proof.
  intros Hslice Hidx Hover.
  destruct (slice_to_bounds _ _ _ Hslice) as [Hlen _].
  split.
  - unfold GetRow. unfold go_bind at 1. unfold get_this at 1.
    destruct (Z.ltb_spec (len rowKey) (indexKeyLength (this s))); [lia |].
    unfold go_bind at 1. unfold go_slice_to. rewrite Hslice. unfold go_ret at 1.
    rewrite Hidx. unfold go_bind at 1.
    rewrite (acquireHandle_over_limit s Hover). reflexivity.
  - unfold GetRowsByPartialKey. unfold go_bind at 1. unfold get_this at 1.
    destruct (Z.ltb_spec (len rowKey) (indexKeyLength (this s))); [lia |].
    unfold go_bind at 1. unfold go_slice_to. rewrite Hslice. unfold go_ret at 1.
    rewrite Hidx. unfold go_bind at 1.
    rewrite (acquireHandle_over_limit s Hover). reflexivity.
Qed.

Lemma lookups_over_the_limit_are_refused_witness :
  GetRow "cats" test_state_full
  = (Returns (None, Some TooManyConcurrentHandlesError), test_state_full) /\
  GetRowsByPartialKey "cats" 1 test_state_full
  = (Returns ([], Some TooManyConcurrentHandlesError), test_state_full).
Proof.
  apply (lookups_over_the_limit_are_refused test_state_full "cats" "cat" 0 1);
    vm_compute; reflexivity.
Defined.


(** X10.  When the seek fails, a lookup returns the error of the seek as it
    is, with no row, and reads nothing; the handle it took is idle again
    when the call ends. *)
Theorem lookups_return_the_seek_error `{!StringsLib} (s s1 : State)
    (rowKey indexKey : string) (offset limit : Z) (h : os_File) (e : error) :
  slice_to rowKey (indexKeyLength (this s)) = Some indexKey ->
  index (this s) !! indexKey = Some offset ->
  acquireHandle s = (Returns (Some h, None), s1) ->
  w_seek (world s1) (file_name h) offset = Some e ->
  GetRow rowKey s
  = (Returns (None, Some e), snd (releaseHandle (Some h) (positioned h offset s1))) /\
  GetRowsByPartialKey rowKey limit s
  = (Returns ([], Some e), snd (releaseHandle (Some h) (positioned h offset s1))) /\
  w_ops (world (snd (releaseHandle (Some h) (positioned h offset s1))))
  = OpSeek h offset :: w_ops (world s1) /\
  pool_idle (pool (this (snd (releaseHandle (Some h) (positioned h offset s1)))))
  = h :: pool_idle (pool (this s1)).
Proof.
  intros Hslice Hidx Hacq Hseek.
  destruct (slice_to_bounds _ _ _ Hslice) as [Hlen _].
  split; [| split; [| split; reflexivity]].
  - unfold GetRow. unfold go_bind at 1. unfold get_this at 1.
    destruct (Z.ltb_spec (len rowKey) (indexKeyLength (this s))); [lia |].
    unfold go_bind at 1. unfold go_slice_to. rewrite Hslice. unfold go_ret at 1.
    rewrite Hidx. unfold go_bind at 1. rewrite Hacq.
    rewrite defer_releaseHandle.
    unfold go_bind, file_Seek. rewrite Hseek. reflexivity.
  - unfold GetRowsByPartialKey. unfold go_bind at 1. unfold get_this at 1.
    destruct (Z.ltb_spec (len rowKey) (indexKeyLength (this s))); [lia |].
    unfold go_bind at 1. unfold go_slice_to. rewrite Hslice. unfold go_ret at 1.
    rewrite Hidx. unfold go_bind at 1. rewrite Hacq.
    rewrite defer_releaseHandle.
    unfold go_bind, file_Seek. rewrite Hseek. reflexivity.
Qed.

Lemma lookups_return_the_seek_error_witness :
  fst (GetRow "cats" test_state_no_seek)
  = Returns (None, Some (lib_error "seek: bad file descriptor")).
Proof.
  refine (f_equal fst
            (proj1 (lookups_return_the_seek_error test_state_no_seek
                      (snd (acquireHandle test_state_no_seek)) "cats" "cat" 0 1
                      test_handle (lib_error "seek: bad file descriptor") _ _ _ _)));
    vm_compute; reflexivity.
Defined.

(** The loop of [GetRow] at the end of the region. *)
Lemma GetRow_scan_closed (n : Z) (indexKey rowKey : string) (h : os_File)
    (rest : list ReadResult) (s : State) :
  0 <= n ->
  region_closed n indexKey rest = true ->
  GetRow_scan n indexKey rowKey h rest s = (Returns (None, None), after_reads 1 h s).
Proof.
  intros Hn Hclosed. destruct rest as [| r rest]; [reflexivity |].
  cbn [region_closed] in Hclosed.
  destruct (errors_Is (rr_err r) io_EOF) eqn:Heof.
  - cbn [GetRow_scan]. unfold go_bind at 1. unfold log_op at 1. rewrite Heof.
    reflexivity.
  - apply GetRow_scan_stops; assumption.
Qed.

(** What the loop of [GetRow] returns over a whole region. *)
Lemma GetRow_scan_region (n : Z) (indexKey rowKey : string) (h : os_File)
    (region rest : list ReadResult) :
  slice_to rowKey n = Some indexKey ->
  forallb (in_region n indexKey) region = true ->
  region_closed n indexKey rest = true ->
  forall s : State,
  fst (GetRow_scan n indexKey rowKey h (region ++ rest) s)
  = Returns (option_map rr_line (List.find (has_key rowKey) region), None).
Proof.
  intros Hslice Hall Hclosed.
  destruct (slice_to_bounds _ _ _ Hslice) as [[Hn _] _].
  induction region as [| x region IH]; intros s.
  - cbn [app List.find option_map].
    rewrite (GetRow_scan_closed _ _ _ _ _ _ Hn Hclosed). reflexivity.
  - cbn [forallb] in Hall. apply andb_true_iff in Hall as [Hx Hall].
    cbn [List.find]. destruct (has_key rowKey x) eqn:Hkey.
    + unfold has_key in Hkey. apply bool_decide_eq_true in Hkey.
      unfold in_region in Hx. apply andb_true_iff in Hx as [Heof _].
      apply negb_true_iff in Heof.
      change ((x :: region) ++ rest)%list with (x :: region ++ rest)%list.
      rewrite (GetRow_scan_hit _ _ _ _ _ _ _ Hslice Heof Hkey). reflexivity.
    + change ((x :: region) ++ rest)%list with ([x] ++ (region ++ rest))%list.
      rewrite GetRow_scan_passes by (cbn [forallb]; rewrite Hx, Hkey; reflexivity).
      apply IH. exact Hall.
Qed.

(** X11.  Over a whole same-prefix region, that the end of the file or a
    record with another prefix closes, [GetRow] returns the first record of
    the region whose first field is the key, and nil when the region holds
    none; the error is nil either way. *)
Theorem GetRow_returns_the_first_record_with_the_key (s s1 : State)
    (rowKey indexKey : string) (n offset : Z) (h : os_File)
    (region rest : list ReadResult) :
  indexKeyLength (this s) = n ->
  slice_to rowKey n = Some indexKey ->
  index (this s) !! indexKey = Some offset ->
  acquireHandle s = (Returns (Some h, None), s1) ->
  w_seek (world s1) (file_name h) offset = None ->
  w_csv (world s1) (file_name h) offset = (region ++ rest)%list ->
  forallb (in_region n indexKey) region = true ->
  region_closed n indexKey rest = true ->
  fst (GetRow rowKey s)
  = Returns (option_map rr_line (List.find (has_key rowKey) region), None).
Proof.
  intros Hn Hslice Hidx Hacq Hseek Hcsv Hregion Hclosed. subst n.
  rewrite (GetRow_runs_scan s s1 rowKey indexKey offset h Hslice Hidx Hacq Hseek).
  cbn [fst]. rewrite Hcsv.
  apply GetRow_scan_region; assumption.
Qed.

Lemma GetRow_returns_the_first_record_with_the_key_witness :
  fst (GetRow "catz" test_state) = Returns (None, None).
Proof.
  refine (GetRow_returns_the_first_record_with_the_key test_state
            (snd (acquireHandle test_state)) "catz" "cat" 3 0 test_handle
            [row ["cat"; "1"]; row ["cats"; "2"]] [row ["bat"; "3"]; row ["dog"; "4"]]
            _ _ _ _ _ _ _ _);
    vm_compute; reflexivity.
Defined.

Section PartialKeyBounds.
Context `{!StringsLib}.

(** Every row the loop adds carries the prefix and contains the query. *)
Lemma GetRowsByPartialKey_scan_sound (n : Z) (indexKey rowKey : string) (limit : Z)
    (h : os_File) (reader : list ReadResult) :
  forall (rows res : list (list string)) (e : option error) (s : State),
  Forall (fun line => partial_match n indexKey rowKey (row line) = true) rows ->
  fst (GetRowsByPartialKey_scan n indexKey rowKey limit h rows reader s)
  = Returns (res, e) ->
  Forall (fun line => partial_match n indexKey rowKey (row line) = true) res.
Proof.
  induction reader as [| x reader IH]; intros rows res e s Hrows;
    cbn [GetRowsByPartialKey_scan]; unfold go_bind at 1; unfold log_op at 1.
  - intros [= <- _]. exact Hrows.
  - destruct (errors_Is (rr_err x) io_EOF); [intros [= <- _]; exact Hrows |].
    destruct (rr_line x) as [| k0 fields] eqn:Hline; cbn [first_field];
      [discriminate |].
    unfold go_bind at 1, go_ret at 1.
    destruct (len k0 <? n); [apply IH; exact Hrows |].
    unfold go_slice_to. destruct (slice_to k0 n) as [key |] eqn:Hkey;
      [| discriminate].
    unfold go_bind at 1, go_ret at 1.
    destruct (decide (key <> indexKey)) as [| Heq]; [intros [= <- _]; exact Hrows |].
    destruct (strings_Contains (strings_ToLower k0) (strings_ToLower rowKey))
      eqn:Hcontains; [| apply IH; exact Hrows].
    assert (Hnew : Forall (fun line => partial_match n indexKey rowKey (row line) = true)
                     (rows ++ [k0 :: fields])).
    { apply Forall_app. split; [exact Hrows |]. constructor; [| constructor].
      unfold partial_match, key_of, has_prefix. cbn. rewrite Hkey, Hcontains.
      destruct (decide (key = indexKey)) as [-> | Hne]; [| contradiction].
      rewrite bool_decide_eq_true_2 by reflexivity. reflexivity. }
    destruct ((limit <=? Z.of_nat (length (rows ++ [k0 :: fields])))
              && negb (limit =? -1)).
    + intros [= <- _]. exact Hnew.
    + apply IH. exact Hnew.
Qed.

(** The loop never holds more rows than the limit allows. *)
Lemma GetRowsByPartialKey_scan_bounded (n : Z) (indexKey rowKey : string) (limit : Z)
    (h : os_File) (reader : list ReadResult) :
  limit <> -1 ->
  forall (rows res : list (list string)) (e : option error) (s : State),
  Z.of_nat (length rows) < Z.max 1 limit ->
  fst (GetRowsByPartialKey_scan n indexKey rowKey limit h rows reader s)
  = Returns (res, e) ->
  Z.of_nat (length res) <= Z.max 1 limit.
Proof.
  intros Hlimited.
  induction reader as [| x reader IH]; intros rows res e s Hrows;
    cbn [GetRowsByPartialKey_scan]; unfold go_bind at 1; unfold log_op at 1.
  - intros [= <- _]. lia.
  - destruct (errors_Is (rr_err x) io_EOF); [intros [= <- _]; lia |].
    destruct (rr_line x) as [| k0 fields]; cbn [first_field]; [discriminate |].
    unfold go_bind at 1, go_ret at 1.
    destruct (len k0 <? n); [apply IH; exact Hrows |].
    unfold go_slice_to. destruct (slice_to k0 n) as [key |]; [| discriminate].
    unfold go_bind at 1, go_ret at 1.
    destruct (decide (key <> indexKey)); [intros [= <- _]; lia |].
    destruct (strings_Contains (strings_ToLower k0) (strings_ToLower rowKey));
      [| apply IH; exact Hrows].
    rewrite length_app. cbn [length].
    destruct (Z.leb_spec limit (Z.of_nat (length rows + 1))) as [Hfull | Hmore];
      destruct (Z.eqb_spec limit (-1)); try contradiction; cbn [andb negb].
    + intros [= <- _]. rewrite length_app. cbn [length]. lia.
    + apply IH. rewrite length_app. cbn [length]. lia.
Qed.

(** X12.  Whatever the state, the files and the limit, every row that
    [GetRowsByPartialKey] returns has a first field whose first
    [indexKeyLength] bytes are those of the query, byte for byte, and which
    contains the query once both are lower-cased. *)
Theorem GetRowsByPartialKey_rows_match (s : State) (rowKey : string) (limit : Z)
    (rows : list (list string)) (e : option error) (line : list string) :
  fst (GetRowsByPartialKey rowKey limit s) = Returns (rows, e) ->
  In line rows ->
  exists k0 : string,
    head line = Some k0 /\
    slice_to k0 (indexKeyLength (this s)) = slice_to rowKey (indexKeyLength (this s)) /\
    strings_Contains (strings_ToLower k0) (strings_ToLower rowKey) = true.
Proof.
  intros Hrun Hin.
  assert (Hall : exists indexKey,
             slice_to rowKey (indexKeyLength (this s)) = Some indexKey /\
             Forall (fun l => partial_match (indexKeyLength (this s)) indexKey rowKey
                                (row l) = true) rows).
  { revert Hrun. unfold GetRowsByPartialKey. unfold go_bind at 1. unfold get_this at 1.
    destruct (len rowKey <? indexKeyLength (this s));
      [intros [= <- _]; destruct Hin |].
    unfold go_bind at 1. unfold go_slice_to.
    destruct (slice_to rowKey (indexKeyLength (this s))) as [indexKey |];
      [| discriminate].
    unfold go_ret at 1. exists indexKey. split; [reflexivity |]. revert Hrun.
    destruct (index (this s) !! indexKey) as [offset |];
      [| intros [= <- _]; constructor].
    unfold go_bind at 1.
    destruct (acquireHandle s) as [[[handle [e1 |]] | msg] s1];
      [intros [= <- _]; constructor | | discriminate].
    rewrite defer_releaseHandle. cbn [fst].
    destruct handle as [h |]; [| intros [= <- _]; constructor].
    unfold go_bind at 1. unfold file_Seek.
    destruct (w_seek (world s1) (file_name h) offset);
      [intros [= <- _]; constructor |].
    unfold go_bind at 1. unfold in_world, csv_NewReader.
    apply GetRowsByPartialKey_scan_sound. constructor. }
  destruct Hall as [indexKey [Hslice Hall]].
  rewrite Forall_forall in Hall. specialize (Hall line).
  apply list_elem_of_In in Hin. specialize (Hall Hin).
  unfold partial_match, key_of, has_prefix in Hall. cbn in Hall.
  destruct line as [| k0 fields]; [discriminate |]. cbn in Hall.
  exists k0. apply andb_true_iff in Hall as [Hprefix Hcontains].
  destruct (slice_to k0 (indexKeyLength (this s))) as [key |]; [| discriminate].
  apply bool_decide_eq_true in Hprefix. subst key.
  repeat split; [symmetry; exact Hslice | exact Hcontains].
Qed.

(** X13.  Whatever the state and the files, with a limit other than -1
    [GetRowsByPartialKey] never returns more rows than the limit, or than
    one row when the limit is below 1. *)
Theorem GetRowsByPartialKey_never_exceeds_the_limit (s : State) (rowKey : string)
    (limit : Z) (rows : list (list string)) (e : option error) :
  limit <> -1 ->
  fst (GetRowsByPartialKey rowKey limit s) = Returns (rows, e) ->
  Z.of_nat (length rows) <= Z.max 1 limit.
Proof.
  intros Hlimited.
  unfold GetRowsByPartialKey. unfold go_bind at 1. unfold get_this at 1.
  destruct (len rowKey <? indexKeyLength (this s)); [intros [= <- _]; cbn; lia |].
  unfold go_bind at 1. unfold go_slice_to.
  destruct (slice_to rowKey (indexKeyLength (this s))) as [indexKey |];
    [| discriminate].
  unfold go_ret at 1.
  destruct (index (this s) !! indexKey) as [offset |]; [| intros [= <- _]; cbn; lia].
  unfold go_bind at 1.
  destruct (acquireHandle s) as [[[handle [e1 |]] | msg] s1];
    [intros [= <- _]; cbn; lia | | discriminate].
  rewrite defer_releaseHandle. cbn [fst].
  destruct handle as [h |]; [| intros [= <- _]; cbn; lia].
  unfold go_bind at 1. unfold file_Seek.
  destruct (w_seek (world s1) (file_name h) offset); [intros [= <- _]; cbn; lia |].
  unfold go_bind at 1. unfold in_world, csv_NewReader.
  apply GetRowsByPartialKey_scan_bounded; [exact Hlimited | cbn; lia].
Qed.
End PartialKeyBounds.

Lemma GetRowsByPartialKey_rows_match_witness :
  exists k0 : string,
    head ["cats"; "2"] = Some k0 /\
    slice_to k0 3 = slice_to "cat" 3 /\
    strings_Contains (strings_ToLower k0) (strings_ToLower "cat") = true.
Proof.
  refine (GetRowsByPartialKey_rows_match test_state "cat" (-1)
            [["cat"; "1"]; ["cats"; "2"]] None ["cats"; "2"] _ _).
  - vm_compute. reflexivity.
  - right. left. reflexivity.
Defined.

Lemma GetRowsByPartialKey_never_exceeds_the_limit_witness :
  Z.of_nat (length [["cat"; "1"]]) <= Z.max 1 1.
Proof.
  refine (GetRowsByPartialKey_never_exceeds_the_limit test_state "cat" 1
            [["cat"; "1"]] None _ _).
  - discriminate.
  - vm_compute. reflexivity.
Defined.







(** X15.  On an engine whose prefix length is negative, both lookups panic
    on the slice of the key, whatever the key, and leave the whole state as
    it was. *)
Theorem lookups_panic_on_a_negative_prefix_length `{!StringsLib} (s : State)
    (rowKey : string) (limit : Z) :
  indexKeyLength (this s) < 0 ->
  GetRow rowKey s = (Panics "slice bounds out of range", s) /\
  GetRowsByPartialKey rowKey limit s = (Panics "slice bounds out of range", s).
Proof.
  intros Hneg.
  assert (Hlen : 0 <= len rowKey) by (unfold len; lia).
  assert (Hslice : slice_to rowKey (indexKeyLength (this s)) = None).
  { unfold slice_to. apply Z.ltb_lt in Hneg. rewrite Hneg. reflexivity. }
  unfold GetRow, GetRowsByPartialKey, go_bind, get_this, go_slice_to.
  destruct (Z.ltb_spec (len rowKey) (indexKeyLength (this s))); [lia |].
  rewrite Hslice. split; reflexivity.
Qed.

Lemma lookups_panic_on_a_negative_prefix_length_witness :
  GetRow "cats" test_state_negative
  = (Panics "slice bounds out of range", test_state_negative) /\
  GetRowsByPartialKey "cats" 1 test_state_negative
  = (Panics "slice bounds out of range", test_state_negative).
Proof.
  apply (lookups_panic_on_a_negative_prefix_length test_state_negative "cats" 1).
  vm_compute. reflexivity.
Defined.

(** ** Construction, on its other paths *)

(** X16.  Over an index file whose records all have two columns or more,
    once both paths exist and the index file opens, [NewFileIndex] returns
    an engine and no error.  The engine carries the paths, the limit, the
    prefix length and the warm-up settings of the configuration unchecked, a
    counter of 0 and an empty pool (the data file is not opened yet); its
    index maps a prefix to the offset of the last line that carries it with
    an integer offset, and holds nothing else. *)
Theorem NewFileIndex_builds_the_engine (config : Config) (w : World) :
  errors_Is (w_stat w (DataCsvPath config)) os_ErrNotExist = false ->
  errors_Is (w_stat w (IndexCsvPath config)) os_ErrNotExist = false ->
  w_open w (IndexCsvPath config) = None ->
  forallb two_columns (before_EOF (w_csv w (IndexCsvPath config) 0)) = true ->
  exists f : FileIndex,
    fst (NewFileIndex config w) = Returns (Some f, None) /\
    (dataCsvPath f, indexCsvPath f, concurrentHandleLimit f, warmUpCount f,
     warmUpDelay f, indexKeyLength f)
    = (DataCsvPath config, IndexCsvPath config, ConcurrentHandleLimit config,
       WarmUpCount config, WarmUpDelay config, IndexKeyLength config) /\
    openHandleCount f = 0 /\
    pool f = mk_Pool (DataCsvPath config) [] /\
    forall key : string,
      index f !! key = last_entry key (before_EOF (w_csv w (IndexCsvPath config) 0)).
Proof.
  intros Hdata Hindex Hopen Hcols.
  unfold NewFileIndex. unfold go_bind at 1. unfold os_Stat at 1. rewrite Hdata.
  unfold go_bind at 1. unfold os_Stat at 1. cbn [w_stat world_log]. rewrite Hindex.
  unfold go_bind at 1. unfold os_Open. cbn [w_open world_log]. rewrite Hopen.
  unfold go_bind at 1. unfold csv_NewReader at 1.
  cbn [w_csv world_fresh_fd world_log file_name]. unfold go_bind at 1.
  match goal with
  | |- context [NewFileIndex_load ?file ?reader ?m ?w'] =>
      destruct (NewFileIndex_load_two_columns file reader Hcols m w')
        as [index1 [Hrun Hlook]];
      destruct (NewFileIndex_load file reader m w') as [res w1]
  end.
  cbn [fst] in Hrun. subst res. unfold go_ret. cbn [fst].
  eexists. split; [reflexivity |]. cbn.
  repeat split; try reflexivity.
  intros key. rewrite Hlook.
  destruct (last_entry key (before_EOF (w_csv w (IndexCsvPath config) 0)));
    [reflexivity | apply lookup_empty].
Qed.

Lemma NewFileIndex_builds_the_engine_witness :
  exists f : FileIndex,
    fst (NewFileIndex test_config (test_world true test_data test_index_lines))
    = Returns (Some f, None) /\
    (dataCsvPath f, indexCsvPath f, concurrentHandleLimit f, warmUpCount f,
     warmUpDelay f, indexKeyLength f)
    = ("data.csv", "index.csv", 2, 1, 0, 3) /\
    openHandleCount f = 0 /\
    pool f = mk_Pool "data.csv" [] /\
    forall key : string,
      index f !! key = last_entry key test_index_lines.
Proof.
  apply (NewFileIndex_builds_the_engine test_config
           (test_world true test_data test_index_lines));
    vm_compute; reflexivity.
Defined.

(** X17.  [NewFileIndex] checks the data path first, then the index path,
    then opens the index file.  When the data path does not exist it
    returns "data csv file does not exist" after that one check; when the
    data path exists and the index path does not, it returns "index csv
    file does not exist" and opens nothing; when both exist and the index
    file does not open, it returns the error of the open as it is.  No
    engine is returned in any of these cases. *)
Theorem NewFileIndex_reports_what_is_missing (config : Config) (w : World) :
  (errors_Is (w_stat w (DataCsvPath config)) os_ErrNotExist = true ->
   NewFileIndex config w
   = (Returns (None, Some (errors_New "data csv file does not exist")),
      world_log (OpStat (DataCsvPath config)) w)) /\
  (errors_Is (w_stat w (DataCsvPath config)) os_ErrNotExist = false ->
   errors_Is (w_stat w (IndexCsvPath config)) os_ErrNotExist = true ->
   NewFileIndex config w
   = (Returns (None, Some (errors_New "index csv file does not exist")),
      world_log (OpStat (IndexCsvPath config))
        (world_log (OpStat (DataCsvPath config)) w))) /\
  (forall e : error,
   errors_Is (w_stat w (DataCsvPath config)) os_ErrNotExist = false ->
   errors_Is (w_stat w (IndexCsvPath config)) os_ErrNotExist = false ->
   w_open w (IndexCsvPath config) = Some e ->
   fst (NewFileIndex config w) = Returns (None, Some e)).
Proof.
  split; [| split].
  - intros Hdata. unfold NewFileIndex. unfold go_bind at 1. unfold os_Stat at 1.
    rewrite Hdata. reflexivity.
  - intros Hdata Hindex. unfold NewFileIndex. unfold go_bind at 1.
    unfold os_Stat at 1. rewrite Hdata.
    unfold go_bind at 1. unfold os_Stat at 1. cbn [w_stat world_log].
    rewrite Hindex. reflexivity.
  - intros e Hdata Hindex Hopen. unfold NewFileIndex. unfold go_bind at 1.
    unfold os_Stat at 1. rewrite Hdata.
    unfold go_bind at 1. unfold os_Stat at 1. cbn [w_stat world_log].
    rewrite Hindex.
    unfold go_bind at 1. unfold os_Open. cbn [w_open world_log]. rewrite Hopen.
    reflexivity.
Qed.

Lemma NewFileIndex_reports_what_is_missing_witness :
  NewFileIndex test_config test_world_empty
  = (Returns (None, Some (errors_New "data csv file does not exist")),
     world_log (OpStat "data.csv") test_world_empty).
Proof.
  apply (proj1 (NewFileIndex_reports_what_is_missing test_config test_world_empty)).
  vm_compute. reflexivity.
Defined.
